(** * mcp-react-docs: documentation and source gateway

    A shallow embedding of the two server variants of the repository:
    the local-filesystem server (tools over [fs] and [path]) and the
    remote server (tools over the GitHub raw-content and REST endpoints),
    followed by the properties of the tool handlers.

    Strings are values of [string].  Text that the source builds with
    template literals is built with [++]; [nl], [dq] and [bslash] stand
    for the line feed, the double quote and the backslash. *)

From Stdlib Require Import String Ascii List ZArith Lia Bool Arith Sorted.
From Stdlib Require Import DecimalString.
Import ListNotations.

Open Scope list_scope.
Open Scope string_scope.

(* ------------------------------------------------------------------ *)
(** ** Strings of the host language *)

Module Js.

Definition nl_char : ascii := "010"%char.
Definition dq_char : ascii := "034"%char.
Definition bslash_char : ascii := "092"%char.
Definition slash_char : ascii := "/"%char.
Definition dot_char : ascii := "."%char.

Definition chr (c : ascii) : string := String c EmptyString.

Definition nl : string := chr nl_char.
Definition dq : string := chr dq_char.
Definition bslash : string := chr bslash_char.

(** [s.length === 0] *)
Definition is_empty (s : string) : bool :=
  match s with EmptyString => true | String _ _ => false end.

(** [s.startsWith(p)] *)
Fixpoint startsWith (s p : string) {struct p} : bool :=
  match p with
  | EmptyString => true
  | String c p' =>
      match s with
      | EmptyString => false
      | String d s' => Ascii.eqb c d && startsWith s' p'
      end
  end.

(** [s.includes(p)] *)
Fixpoint includes (s p : string) : bool :=
  startsWith s p ||
  match s with
  | EmptyString => false
  | String _ s' => includes s' p
  end.

(** [s.slice(n)] *)
Fixpoint drop (n : nat) (s : string) : string :=
  match n with
  | O => s
  | S n' => match s with EmptyString => EmptyString | String _ s' => drop n' s' end
  end.

(** [s.endsWith(p)] *)
Definition endsWith (s p : string) : bool :=
  (String.length p <=? String.length s)%nat &&
  String.eqb (drop (String.length s - String.length p) s) p.

(** [s.split(c)] for a one-character separator: never the empty array. *)
Fixpoint split (sep : ascii) (s : string) : list string :=
  match s with
  | EmptyString => [EmptyString]
  | String c s' =>
      if Ascii.eqb c sep then EmptyString :: split sep s'
      else match split sep s' with
           | [] => [chr c]
           | h :: t => String c h :: t
           end
  end.

(** [parts.join(sep)] *)
Definition join (sep : string) (parts : list string) : string :=
  String.concat sep parts.

(** White space and line terminators removed by [trim], on one-byte
    characters: TAB, LF, VT, FF, CR, SP and NBSP. *)
Definition is_space (c : ascii) : bool :=
  let n := nat_of_ascii c in
  ((9 <=? n) && (n <=? 13))%nat || (n =? 32)%nat || (n =? 160)%nat.

Fixpoint trimStart (s : string) : string :=
  match s with
  | EmptyString => EmptyString
  | String c s' => if is_space c then trimStart s' else s
  end.

Fixpoint trimEnd (s : string) : string :=
  match s with
  | EmptyString => EmptyString
  | String c s' =>
      match trimEnd s' with
      | EmptyString => if is_space c then EmptyString else chr c
      | t => String c t
      end
  end.

(** [s.trim()] *)
Definition trim (s : string) : string := trimEnd (trimStart s).

(** [String(n)] for a non-negative integer. *)
Definition of_nat (n : nat) : string := NilEmpty.string_of_uint (Nat.to_uint n).

(** [Array.from(new Set(xs))]: first occurrences, in order. *)
Fixpoint dedup (seen : list string) (xs : list string) : list string :=
  match xs with
  | [] => []
  | x :: rest =>
      if existsb (String.eqb x) seen then dedup seen rest
      else x :: dedup (x :: seen) rest
  end.

End Js.

(* ------------------------------------------------------------------ *)
(** ** POSIX paths ([path.join], [path.relative], [path.extname]) *)

Module Path.

Definition segments (p : string) : list string := Js.split Js.slash_char p.

(** [normalizeString]: the segments of a path with empty and [.]
    segments dropped and [..] resolved; [stack] holds the segments kept
    so far, last one first.  Above the root, [..] is kept for a relative
    path and dropped for an absolute one. *)
Fixpoint norm_segs (allowAbove : bool) (stack : list string) (segs : list string)
  : list string :=
  match segs with
  | [] => rev stack
  | seg :: rest =>
      if Js.is_empty seg || String.eqb seg "." then norm_segs allowAbove stack rest
      else if String.eqb seg ".." then
        match stack with
        | top :: stack' =>
            if String.eqb top ".."
            then norm_segs allowAbove (if allowAbove then ".." :: stack else stack) rest
            else norm_segs allowAbove stack' rest
        | [] => norm_segs allowAbove (if allowAbove then [".."] else []) rest
        end
      else norm_segs allowAbove (seg :: stack) rest
  end.

Definition isAbsolute (p : string) : bool := Js.startsWith p "/".

(** [path.normalize] *)
Definition normalize (p : string) : string :=
  if Js.is_empty p then "."
  else
    let abs := isAbsolute p in
    let trailing := Js.endsWith p "/" in
    let body := Js.join "/" (norm_segs (negb abs) [] (segments p)) in
    if Js.is_empty body then
      (if abs then "/" else if trailing then "./" else ".")
    else
      let body' := if trailing then body ++ "/" else body in
      if abs then "/" ++ body' else body'.

(** [path.join(...parts)] *)
Definition join (parts : list string) : string :=
  match filter (fun s => negb (Js.is_empty s)) parts with
  | [] => "."
  | ps => normalize (Js.join "/" ps)
  end.

(** The segments of [path.resolve(p)] for an absolute [p]; every call
    site of [relative] passes absolute paths. *)
Definition resolved (p : string) : list string := norm_segs false [] (segments p).

Fixpoint strip_common (from to : list string) : list string * list string :=
  match from, to with
  | f :: from', t :: to' =>
      if String.eqb f t then strip_common from' to' else (from, to)
  | _, _ => (from, to)
  end.

(** [path.relative(from, to)] *)
Definition relative (from to : string) : string :=
  let '(up, down) := strip_common (resolved from) (resolved to) in
  Js.join "/" (map (fun _ => "..") up ++ down)%list.

(** The suffix of [s] that starts at its last dot, and whether any
    character comes before that dot. *)
Fixpoint last_dot (s : string) : option (string * bool) :=
  match s with
  | EmptyString => None
  | String c s' =>
      match last_dot s' with
      | Some (ext, _) =>
          Some (ext, true)
      | None =>
          if Ascii.eqb c Js.dot_char then Some (s, false) else None
      end
  end.

Definition basename (p : string) : string :=
  last (filter (fun s => negb (Js.is_empty s)) (segments p)) EmptyString.

(** [path.extname]: from the last dot of the last path component to its
    end; empty when there is no dot, when the dot is the first character
    of the component, and for the component [..]. *)
Definition extname (p : string) : string :=
  let b := basename p in
  if String.eqb b ".." then EmptyString
  else match last_dot b with
       | Some (ext, true) => ext
       | _ => EmptyString
       end.

End Path.

(* ------------------------------------------------------------------ *)
(** ** Regular expressions of the host ([new RegExp(source, "gi")])

    The engine is a collaborator of the program: it is an interface
    here, with the part of its behaviour the search relies on stated as
    a law ([Laws]).  [LiteralEngine] below is a small instance. *)

Module RegExp.

Class Engine : Type := {
  (** compiled expressions *)
  regex : Type;
  (** [new RegExp(source, "gi")]; [None] is the SyntaxError *)
  compile : string -> option regex;
  (** the first match of the expression in a string that starts at the
      given index or after it: the index at which that match ends *)
  exec_from : regex -> string -> nat -> option nat;
  (** case folding of the [i] flag *)
  canonicalize : ascii -> ascii
}.

(** [regex.test(s)] of an expression with the [g] flag, with its
    [lastIndex] passed in and out. *)
Definition test {E : Engine} (r : regex) (lastIndex : nat) (s : string) : bool * nat :=
  if (String.length s <? lastIndex)%nat then (false, 0%nat)
  else match exec_from r s lastIndex with
       | Some e => (true, e)
       | None => (false, 0%nat)
       end.

(** SyntaxCharacter of the pattern grammar. *)
Definition syntax_characters : list ascii :=
  ["^"; "$"; Js.bslash_char; "."; "*"; "+"; "?"; "("; ")"; "["; "]"; "{"; "}"; "|"]%char.

Definition is_syntax_character (c : ascii) : bool :=
  existsb (Ascii.eqb c) syntax_characters.

(** The pattern text that denotes [p] literally: a PatternCharacter for
    every ordinary character and an IdentityEscape for every
    SyntaxCharacter. *)
Fixpoint literal_source (p : string) : string :=
  match p with
  | EmptyString => EmptyString
  | String c p' =>
      if is_syntax_character c
      then String Js.bslash_char (String c (literal_source p'))
      else String c (literal_source p')
  end.

Section Matching.
Variable canon : ascii -> ascii.

(** [p] occurs at the start of [s], up to case folding. *)
Fixpoint ci_startsWith (s p : string) {struct p} : bool :=
  match p with
  | EmptyString => true
  | String c p' =>
      match s with
      | EmptyString => false
      | String d s' =>
          Ascii.eqb (canon c) (canon d) && ci_startsWith s' p'
      end
  end.

(** The least index from [i] on at which [p] occurs in the string
    whose suffix from index [k] is [s]. *)
Fixpoint ci_find (p : string) (s : string) (k i : nat) : option nat :=
  if (i <=? k)%nat && ci_startsWith s p then Some k
  else match s with
       | EmptyString => None
       | String _ s' => ci_find p s' (S k) i
       end.

Definition literal_exec (p s : string) (i : nat) : option nat :=
  option_map (fun k => (k + String.length p)%nat) (ci_find p s 0 i).
End Matching.

(** A pattern made of PatternCharacters and IdentityEscapes of
    SyntaxCharacters compiles, and matches the text it denotes, up to
    case folding. *)
Class Laws (E : Engine) : Prop := {
  literal_atoms :
    forall p : string,
      exists r, compile (literal_source p) = Some r /\
                forall s i, exec_from r s i = literal_exec canonicalize p s i
}.

End RegExp.

(** An engine for patterns without operators: every SyntaxCharacter that
    is not escaped is a SyntaxError. *)
Module LiteralEngine.

Fixpoint decode (src : string) : option string :=
  match src with
  | EmptyString => Some EmptyString
  | String c rest =>
      if Ascii.eqb c Js.bslash_char then
        match rest with
        | String d rest' =>
            if RegExp.is_syntax_character d
            then option_map (String d) (decode rest')
            else None
        | EmptyString => None
        end
      else if RegExp.is_syntax_character c then None
      else option_map (String c) (decode rest)
  end.

Definition upper (c : ascii) : ascii :=
  let n := nat_of_ascii c in
  if ((97 <=? n) && (n <=? 122))%nat then ascii_of_nat (n - 32) else c.

Definition engine : RegExp.Engine :=
  {| RegExp.regex := string;
     RegExp.compile := decode;
     RegExp.exec_from := RegExp.literal_exec upper;
     RegExp.canonicalize := upper |}.

End LiteralEngine.

(* ------------------------------------------------------------------ *)
(** ** The response of a tool handler *)

Record Envelope : Type := {
  text : string;
  (** absent in the source on success *)
  isError : bool
}.

Definition success (t : string) : Envelope := {| text := t; isError := false |}.
Definition failure (t : string) : Envelope := {| text := t; isError := true |}.

(** A registered resource, with the text that reading it yields. *)
Record Resource : Type := {
  resource_name : string;
  resource_uri : string;
  resource_description : string;
  resource_mimeType : string;
  resource_text : string
}.

(* ------------------------------------------------------------------ *)
(** ** The local file system

    A tree of directory entries.  A [File] holds its text, or nothing
    when reading it fails (no permission, a link to a directory). *)

Module Fs.

#[warnings="-register-all"]
Inductive node : Type :=
| File (content : option string)
| Dir (entries : list (string * node)).

Fixpoint assoc (name : string) (entries : list (string * node)) : option node :=
  match entries with
  | [] => None
  | (n, child) :: rest => if String.eqb n name then Some child else assoc name rest
  end.

Fixpoint walk (n : node) (segs : list string) : option node :=
  match segs with
  | [] => Some n
  | s :: rest =>
      match n with
      | Dir entries =>
          match assoc s entries with
          | Some child => walk child rest
          | None => None
          end
      | File _ => None
      end
  end.

(** The node an absolute path leads to, from the root directory. *)
Definition lookup (root : node) (p : string) : option node :=
  walk root (Path.resolved p).

(** [existsSync(p)] *)
Definition existsSync (root : node) (p : string) : bool :=
  match lookup root p with Some _ => true | None => false end.

(** [readFileSync(p, "utf-8")]; [None] when it throws. *)
Definition readFileSync (root : node) (p : string) : option string :=
  match lookup root p with
  | Some (File (Some content)) => Some content
  | _ => None
  end.

End Fs.

(* ------------------------------------------------------------------ *)
(** ** The local server *)

Module Local.

Record PackageInfo : Type := {
  id : string;
  name : string;
  description : string;
  dir : string;
  readmePath : string;
  typesPath : option string;
  github : string
}.

Record Match : Type := {
  file : string;
  line : nat;
  content : string
}.

(** An element of [allResults]: a match with the id of its package. *)
Record Hit : Type := {
  pkg : string;
  hit : Match
}.

(** What a search does to the file system, in order: a call of
    [collectSourceFiles] on the directory of a package, and a call of
    [readFileSync] on a file. *)
Inductive event : Type :=
| Enumerate (d : string)
| ReadFile (p : string).

(** The state of the scan of one package: the [results] array, the
    [lastIndex] of the expression, and what the scan has done to the
    file system so far. *)
Record scan : Type := {
  results : list Match;
  lastIndex : nat;
  reads : list event
}.

Definition IGNORE : list string :=
  ["node_modules"; "dist"; ".git"; ".github"; ".claude"].

Definition extensions : list string := [".ts"; ".tsx"; ".js"; ".jsx"].

Definition has (set : list string) (x : string) : bool :=
  existsb (String.eqb x) set.

(** The characters of the class in
    [pattern.replace(/[.*+?^${}()|[\]\\]/g, "\\$&")]. *)
Definition escape_class : list ascii :=
  ["."; "*"; "+"; "?"; "^"; "$"; "{"; "}"; "("; ")"; "|"; "["; "]"; Js.bslash_char]%char.

Fixpoint escape (pattern : string) : string :=
  match pattern with
  | EmptyString => EmptyString
  | String c rest =>
      if existsb (Ascii.eqb c) escape_class
      then String Js.bslash_char (String c (escape rest))
      else String c (escape rest)
  end.

(** [id.replace(/^@gaddario98\//, empty)]: the namespace prefix removed. *)
Definition strip_namespace (s : string) : string :=
  if Js.startsWith s "@gaddario98/" then Js.drop 12 s else s.

Section Server.
Context {E : RegExp.Engine}.
Variable PACKAGES_ROOT : string.

Definition PACKAGES : list PackageInfo :=
  [ {| id := "react-core";
       name := "@gaddario98/react-core";
       description := "Modular, type-safe React framework: state, forms, queries, pages, localization, auth, notifications";
       dir := PACKAGES_ROOT;
       readmePath := Path.join [PACKAGES_ROOT; "README.md"];
       typesPath := None;
       github := "https://github.com/gaddario98/react-core" |};
    {| id := "react-form";
       name := "@gaddario98/react-form";
       description := "Dynamic, type-safe form builder on TanStack React Form with Jotai state";
       dir := Path.join [PACKAGES_ROOT; "form"];
       readmePath := Path.join [PACKAGES_ROOT; "form"; "README.md"];
       typesPath := Some (Path.join [PACKAGES_ROOT; "form"; "types.ts"]);
       github := "https://github.com/gaddario98/react-form" |};
    {| id := "react-queries";
       name := "@gaddario98/react-queries";
       description := "Unified data fetching layer on TanStack Query + Jotai: queries, mutations, WebSockets";
       dir := Path.join [PACKAGES_ROOT; "queries"];
       readmePath := Path.join [PACKAGES_ROOT; "queries"; "README.md"];
       typesPath := Some (Path.join [PACKAGES_ROOT; "queries"; "types.ts"]);
       github := "https://github.com/gaddario98/react-queries" |};
    {| id := "react-pages";
       name := "@gaddario98/react-pages";
       description := "Page orchestrator: forms + queries + SEO + lazy loading + cross-platform";
       dir := Path.join [PACKAGES_ROOT; "pages"];
       readmePath := Path.join [PACKAGES_ROOT; "pages"; "README.md"];
       typesPath := Some (Path.join [PACKAGES_ROOT; "pages"; "types.ts"]);
       github := "https://github.com/gaddario98/react-pages" |} ].

Variable fs : Fs.node.

Definition readFileSafe (path : string) : string :=
  match Fs.readFileSync fs path with
  | Some content => content
  | None => "Error: file not found at " ++ path
  end.

Definition findPackage (i : string) : option PackageInfo :=
  find (fun p => String.eqb (id p) i || String.eqb (name p) i
                 || String.eqb (id p) (strip_namespace i))
       PACKAGES.

(** The loop of [collectSourceFiles] over the entries of the directory
    [n], found at path [d]; the recursive call on a sub-directory
    reads the entries of that child. *)
Fixpoint collect_dir (d base : string) (n : Fs.node) {struct n} : list string :=
  match n with
  | Fs.File _ => []
  | Fs.Dir entries =>
      (fix loop (es : list (string * Fs.node)) : list string :=
         match es with
         | [] => []
         | (entry, child) :: rest =>
             (if has IGNORE entry then []
              else
                let fullPath := Path.join [d; entry] in
                match child with
                | Fs.Dir _ => collect_dir fullPath base child
                | Fs.File _ =>
                    if has extensions (Path.extname entry)
                    then [Path.relative base fullPath]
                    else []
                end) ++ loop rest
         end)%list entries
  end.

(** [collectSourceFiles(dir)]; [None] when [readdirSync] throws, the
    path being a file. *)
Definition collectSourceFiles (d : string) : option (list string) :=
  match Fs.lookup fs d with
  | None => Some []
  | Some (Fs.Dir entries) => Some (collect_dir d d (Fs.Dir entries))
  | Some (Fs.File _) => None
  end.

(** The expression of [searchInPackage]: the pattern, or the escaped
    pattern when the pattern is not an expression. *)
Definition search_regex (pattern : string) : option RegExp.regex :=
  match RegExp.compile pattern with
  | Some r => Some r
  | None => RegExp.compile (escape pattern)
  end.

(** [results.length >= maxResults]; the cap is an integer, of any sign. *)
Definition reached (maxResults : Z) (rs : list Match) : bool :=
  (maxResults <=? Z.of_nat (length rs))%Z.

(** The loop over the lines of one file, from line index [i]. *)
Fixpoint scan_lines (r : RegExp.regex) (f : string) (maxResults : Z)
         (i : nat) (lines : list string) (st : scan) : scan :=
  match lines with
  | [] => st
  | l :: rest =>
      if reached maxResults (results st) then st
      else
        let '(found, li) := RegExp.test r (lastIndex st) l in
        if found then
          scan_lines r f maxResults (S i) rest
            {| results := results st ++
                          [{| file := f; line := i + 1; content := Js.trim l |}];
               lastIndex := 0;
               reads := reads st |}
        else
          scan_lines r f maxResults (S i) rest
            {| results := results st; lastIndex := li; reads := reads st |}
  end.

(** The loop over the files of a package. *)
Fixpoint scan_files (r : RegExp.regex) (p : PackageInfo) (maxResults : Z)
         (files : list string) (st : scan) : scan :=
  match files with
  | [] => st
  | f :: rest =>
      if reached maxResults (results st) then st
      else
        let fullPath := Path.join [dir p; f] in
        let st1 := {| results := results st; lastIndex := lastIndex st;
                      reads := reads st ++ [ReadFile fullPath] |} in
        match Fs.readFileSync fs fullPath with
        | Some text =>
            scan_files r p maxResults rest
              (scan_lines r f maxResults 0 (Js.split Js.nl_char text) st1)
        | None => scan_files r p maxResults rest st1
        end
  end.

(** [searchInPackage]: the matches and what was read; [None] when the
    enumeration or the construction of the expression throws. *)
Definition searchInPackage (p : PackageInfo) (pattern : string) (maxResults : Z)
  : option (list Match * list event) :=
  match collectSourceFiles (dir p) with
  | None => None
  | Some files =>
      match search_regex pattern with
      | None => None
      | Some r =>
          let st := scan_files r p maxResults files
                      {| results := []; lastIndex := 0;
                         reads := [Enumerate (dir p)] |} in
          Some (results st, reads st)
      end
  end.

Definition not_found (packageId : string) : string :=
  "Package " ++ Js.dq ++ packageId ++ Js.dq ++ " not found. Available: "
  ++ Js.join ", " (map id PACKAGES).

(** [get_package_docs] *)
Definition get_package_docs (packageId : string) : Envelope :=
  match findPackage packageId with
  | None => failure (not_found packageId)
  | Some p => success (readFileSafe (readmePath p))
  end.

(** [p.typesPath] as a condition: neither [null] nor empty. *)
Definition has_types (p : PackageInfo) : bool :=
  match typesPath p with
  | Some t => negb (Js.is_empty t)
  | None => false
  end.

(** [p.typesPath!], used on packages that passed [has_types]. *)
Definition the_typesPath (p : PackageInfo) : string :=
  match typesPath p with
  | Some t => t
  | None => EmptyString
  end.

Definition types_banner (p : PackageInfo) : string :=
  "// ═══ " ++ name p ++ " types ═══" ++ Js.nl ++
  "// File: " ++ Path.relative PACKAGES_ROOT (the_typesPath p) ++ Js.nl ++ Js.nl ++
  readFileSafe (the_typesPath p).

(** [get_package_types] *)
Definition get_package_types (packageId : string) : Envelope :=
  match findPackage packageId with
  | None => failure (not_found packageId)
  | Some p =>
      if negb (has_types p) then
        let subTypes := Js.join (Js.nl ++ Js.nl)
                          (map types_banner (filter has_types PACKAGES)) in
        success ("// @gaddario98/react-core aggregated types" ++ Js.nl ++
                 "// The core package re-exports from sub-modules:" ++ Js.nl ++ Js.nl
                 ++ subTypes)
      else
        success ("// " ++ name p ++ " — "
                 ++ Path.relative PACKAGES_ROOT (the_typesPath p)
                 ++ Js.nl ++ Js.nl ++ readFileSafe (the_typesPath p))
  end.

Definition listing (p : PackageInfo) (files : list string) : string :=
  "# Source files in " ++ name p ++ Js.nl ++ Js.nl ++
  Js.join Js.nl (map (fun f => "- `" ++ f ++ "`") files) ++
  Js.nl ++ Js.nl ++ "---" ++ Js.nl ++
  "Use `get_package_source` with a `filePath` to read a specific file.".

(** [get_package_source]; [filePath] is [None] when it is omitted, and
    [None] as a result is an exception of the enumeration. *)
Definition get_package_source (packageId : string) (filePath : option string)
  : option Envelope :=
  match findPackage packageId with
  | None => Some (failure (not_found packageId))
  | Some p =>
      let list_files :=
        option_map (fun files => success (listing p files))
                   (collectSourceFiles (dir p)) in
      match filePath with
      | None => list_files
      | Some fp =>
          if Js.is_empty fp then list_files
          else
            let fullPath := Path.join [dir p; fp] in
            if negb (Js.startsWith fullPath (dir p)) then
              Some (failure "Error: path traversal not allowed")
            else if negb (Fs.existsSync fs fullPath) then
              option_map
                (fun files =>
                   failure ("File not found: " ++ fp ++ Js.nl ++ Js.nl ++
                            "Available files:" ++ Js.nl ++
                            Js.join Js.nl (map (fun f => "- " ++ f) files)))
                (collectSourceFiles (dir p))
            else
              Some (success ("// " ++ name p ++ " — " ++ fp ++ Js.nl ++ Js.nl
                             ++ readFileSafe fullPath))
      end
  end.

Definition tag (p : PackageInfo) (m : Match) : Hit := {| pkg := id p; hit := m |}.

(** The loop of [search_source] over the packages to search. *)
Fixpoint search_packages (pattern : string) (maxResults : Z)
         (pkgs : list PackageInfo) (allResults : list Hit) (trace : list event)
  : option (list Hit * list event) :=
  match pkgs with
  | [] => Some (allResults, trace)
  | p :: rest =>
      match searchInPackage p pattern (maxResults - Z.of_nat (length allResults)) with
      | None => None
      | Some (rs, evs) =>
          let all' := (allResults ++ map (tag p) rs)%list in
          let trace' := (trace ++ evs)%list in
          if (maxResults <=? Z.of_nat (length all'))%Z then Some (all', trace')
          else search_packages pattern maxResults rest all' trace'
      end
  end.

Definition packagesToSearch (packageId : string) : list PackageInfo :=
  if String.eqb packageId "all" then PACKAGES
  else match findPackage packageId with
       | Some p => [p]
       | None => []
       end.

(** [allResults] of [search_source], with the trace of the search. *)
Definition search_all (packageId pattern : string) (maxResults : Z)
  : option (list Hit * list event) :=
  search_packages pattern maxResults (packagesToSearch packageId) [] [].

Definition render (h : Hit) : string :=
  "**" ++ pkg h ++ "** — `" ++ file (hit h) ++ ":" ++ Js.of_nat (line (hit h)) ++ "`"
  ++ Js.nl ++ "```" ++ Js.nl ++ content (hit h) ++ Js.nl ++ "```".

(** [search_source] *)
Definition search_source (packageId pattern : string) (maxResults : Z)
  : option Envelope :=
  match packagesToSearch packageId with
  | [] =>
      Some (failure (not_found packageId ++ ", or use 'all'"))
  | _ :: _ =>
      match search_all packageId pattern maxResults with
      | None => None
      | Some ([], _) =>
          Some (success ("No results found for pattern " ++ Js.dq ++ pattern ++ Js.dq
                         ++ " in " ++
                         (if String.eqb packageId "all" then "any package"
                          else packageId)))
      | Some (allResults, _) =>
          Some (success
                  ("# Search results for " ++ Js.dq ++ pattern ++ Js.dq ++ Js.nl ++ Js.nl
                   ++ "Found " ++ Js.of_nat (length allResults) ++ " match" ++
                   (if (1 <? length allResults)%nat then "es" else EmptyString)
                   ++ ":" ++ Js.nl ++ Js.nl ++
                   Js.join (Js.nl ++ Js.nl) (map render allResults)))
      end
  end.

(** The text of [`${JSON.parse(text).version}`]; [None] when the parse or
    the access throws. *)
Variable version_of : string -> option string.

(** [relative(PACKAGES_ROOT, p.dir) || "."] *)
Definition directory_of (p : PackageInfo) : string :=
  let r := Path.relative PACKAGES_ROOT (dir p) in
  if Js.is_empty r then "." else r.

Definition package_entry (p : PackageInfo) : string :=
  "### " ++ name p ++ Js.nl ++
  "- **ID**: `" ++ id p ++ "`" ++ Js.nl ++
  "- **Description**: " ++ description p ++ Js.nl ++
  "- **GitHub**: " ++ github p ++ Js.nl ++
  "- **Directory**: `" ++ directory_of p ++ "`".

(** The version of the root manifest, or [unknown]. *)
Definition manifest_version : string :=
  match Fs.readFileSync fs (Path.join [PACKAGES_ROOT; "package.json"]) with
  | Some manifest =>
      match version_of manifest with
      | Some v => v
      | None => "unknown"
      end
  | None => "unknown"
  end.

(** [list_packages] *)
Definition list_packages : Envelope :=
  success ("# @gaddario98 React Packages (v" ++ manifest_version ++ ")" ++ Js.nl ++ Js.nl
           ++ Js.join (Js.nl ++ Js.nl) (map package_entry PACKAGES)
           ++ Js.nl ++ Js.nl ++ "---" ++ Js.nl ++ Js.nl ++
           "**Usage**: Use `get_package_docs` to read the full README, `get_package_types` for TypeScript types, or `search_source` to find specific patterns.").

(** The resources registered for the packages, one README each. *)
Definition readme_resources : list Resource :=
  map (fun p =>
         {| resource_name := id p ++ "-readme";
            resource_uri := "docs://" ++ id p ++ "/readme";
            resource_description := name p ++ " — full README documentation";
            resource_mimeType := "text/markdown";
            resource_text := readFileSafe (readmePath p) |})
      PACKAGES.

End Server.

End Local.

(* ------------------------------------------------------------------ *)
(** ** The network of the remote server *)

Module Net.

(** The outcome of an operation that may throw an [Error]. *)
Inductive result (A : Type) : Type :=
| Ok (value : A)
| Err (message : string).
Arguments Ok {A} value.
Arguments Err {A} message.

(** What [fetch] resolves to, with the body already read. *)
Record response (B : Type) : Type := {
  ok : bool;
  status : nat;
  statusText : string;
  body : B
}.
Arguments ok {B} r.
Arguments status {B} r.
Arguments statusText {B} r.
Arguments body {B} r.

(** An entry of the tree listing of the hosting API. *)
Record tree_item : Type := {
  type : string;
  path : string
}.

(** A hit of the code search of the hosting API. *)
Record search_item : Type := {
  item_path : string;
  html_url : string;
  repository_full_name : string
}.

Record search_data : Type := {
  total_count : nat;
  items : option (list search_item)
}.

End Net.

(* ------------------------------------------------------------------ *)
(** ** The remote server *)

Module Remote.

Import Net.

Record PackageInfo : Type := {
  id : string;
  name : string;
  description : string;
  repo : string;
  branch : string;
  basePath : string;
  readmePath : string;
  typesPath : option string;
  github : string
}.

Definition PACKAGES : list PackageInfo :=
  [ {| id := "react-core";
       name := "@gaddario98/react-core";
       description := "Modular, type-safe React framework: state, forms, queries, pages, localization, auth, notifications";
       repo := "gaddario98/react-core";
       branch := "master";
       basePath := EmptyString;
       readmePath := "README.md";
       typesPath := None;
       github := "https://github.com/gaddario98/react-core" |};
    {| id := "react-form";
       name := "@gaddario98/react-form";
       description := "Dynamic, type-safe form builder on TanStack React Form with Jotai state";
       repo := "gaddario98/react-base-form";
       branch := "master";
       basePath := EmptyString;
       readmePath := "README.md";
       typesPath := Some "types.ts";
       github := "https://github.com/gaddario98/react-base-form" |};
    {| id := "react-queries";
       name := "@gaddario98/react-queries";
       description := "Unified data fetching layer on TanStack Query + Jotai: queries, mutations, WebSockets";
       repo := "gaddario98/react-base-queries";
       branch := "master";
       basePath := EmptyString;
       readmePath := "README.md";
       typesPath := Some "types.ts";
       github := "https://github.com/gaddario98/react-base-queries" |};
    {| id := "react-pages";
       name := "@gaddario98/react-pages";
       description := "Page orchestrator: forms + queries + SEO + lazy loading + cross-platform";
       repo := "gaddario98/react-base-pages";
       branch := "master";
       basePath := EmptyString;
       readmePath := "README.md";
       typesPath := Some "types.ts";
       github := "https://github.com/gaddario98/react-base-pages" |} ].

Definition findPackage (i : string) : option PackageInfo :=
  find (fun p => String.eqb (id p) i || String.eqb (name p) i
                 || String.eqb (id p) (Local.strip_namespace i))
       PACKAGES.

Definition IGNORE_PATTERNS : list string :=
  ["node_modules"; "dist"; ".git"; ".github"; ".claude"].

(** [path.match(/\.(ts|tsx|js|jsx)$/)] as a condition: the expression
    has no [m] flag, so it matches at the end of the path only. *)
Definition source_extension (p : string) : bool :=
  Js.endsWith p ".ts" || Js.endsWith p ".tsx" || Js.endsWith p ".js" || Js.endsWith p ".jsx".

(** [s.replace(pat, empty)]: the first occurrence of [pat] removed. *)
Fixpoint remove_first (s pat : string) : string :=
  if Js.startsWith s pat then Js.drop (String.length pat) s
  else match s with
       | EmptyString => EmptyString
       | String c s' => String c (remove_first s' pat)
       end.

Definition not_found (packageId : string) : string :=
  "Package " ++ Js.dq ++ packageId ++ Js.dq ++ " not found. Available: "
  ++ Js.join ", " (map id PACKAGES).

Section Server.
(** The environment variable, [None] when it is not set. *)
Variable GITHUB_TOKEN : option string.
(** [fetch(url)] followed by [response.text()]. *)
Variable fetch_text : string -> result (response string).
(** [fetch(url, ...)] followed by [response.json()], for the two
    endpoints of the hosting API the server calls. *)
Variable fetch_tree : string -> result (response (list tree_item)).
Variable fetch_search : string -> result (response search_data).
Variable encodeURIComponent : string -> string.

Definition token_set : bool :=
  match GITHUB_TOKEN with
  | Some t => negb (Js.is_empty t)
  | None => false
  end.

Definition fetchGitHubAPI {B : Type} (fetch_json : string -> result (response B))
           (endpoint : string) : result B :=
  match fetch_json ("https://api.github.com" ++ endpoint) with
  | Err m => Err m
  | Ok resp =>
      if negb (ok resp)
      then Err ("GitHub API Error: " ++ Js.of_nat (status resp) ++ " " ++ statusText resp)
      else Ok (body resp)
  end.

Definition fetchRawFile (rp br p : string) : result string :=
  let url := "https://raw.githubusercontent.com/" ++ rp ++ "/" ++ br ++ "/" ++ p in
  match fetch_text url with
  | Err m => Err m
  | Ok resp =>
      if negb (ok resp) then
        if (status resp =? 404)%nat
        then Err ("File not found: " ++ p ++ " in " ++ rp)
        else Err ("Failed to fetch file: " ++ statusText resp)
      else Ok (body resp)
  end.

(** [get_package_docs] *)
Definition get_package_docs (packageId : string) : Envelope :=
  match findPackage packageId with
  | None => failure (not_found packageId)
  | Some p =>
      match fetchRawFile (repo p) (branch p) (readmePath p) with
      | Ok t => success t
      | Err m => failure ("Error fetching documentation: " ++ m)
      end
  end.

(** [pkg.typesPath] as a condition: neither [null] nor empty. *)
Definition has_types (p : PackageInfo) : bool :=
  match typesPath p with
  | Some t => negb (Js.is_empty t)
  | None => false
  end.

(** [p.typesPath !== null] *)
Definition types_not_null (p : PackageInfo) : bool :=
  match typesPath p with
  | Some _ => true
  | None => false
  end.

(** [p.typesPath!] *)
Definition the_typesPath (p : PackageInfo) : string :=
  match typesPath p with
  | Some t => t
  | None => EmptyString
  end.

Definition types_banner (p : PackageInfo) : string :=
  match fetchRawFile (repo p) (branch p) (the_typesPath p) with
  | Ok c =>
      "// ═══ " ++ name p ++ " types ═══" ++ Js.nl ++
      "// File: " ++ the_typesPath p ++ Js.nl ++ Js.nl ++ c
  | Err _ => "// ═══ " ++ name p ++ " types: Not Available ═══"
  end.

(** [get_package_types] *)
Definition get_package_types (packageId : string) : Envelope :=
  match findPackage packageId with
  | None => failure (not_found packageId)
  | Some p =>
      if negb (has_types p) then
        let subPkgs := filter types_not_null PACKAGES in
        let subTypes := Js.join (Js.nl ++ Js.nl) (map types_banner subPkgs) in
        success ("// @gaddario98/react-core aggregated types" ++ Js.nl ++
                 "// The core package re-exports from sub-modules:" ++ Js.nl ++ Js.nl
                 ++ subTypes)
      else
        match fetchRawFile (repo p) (branch p) (the_typesPath p) with
        | Ok t =>
            success ("// " ++ name p ++ " — " ++ the_typesPath p ++ Js.nl ++ Js.nl ++ t)
        | Err m => failure ("Error fetching types: " ++ m)
        end
  end.

(** The filter of the tree listing. *)
Definition keep_path (p : PackageInfo) (f : string) : bool :=
  if negb (Js.is_empty (basePath p)) && negb (Js.startsWith f (basePath p ++ "/"))
  then false
  else if existsb (fun ignore => Js.includes f ("/" ++ ignore ++ "/")
                                 || Js.startsWith f (ignore ++ "/"))
                  IGNORE_PATTERNS
  then false
  else source_extension f.

Definition list_files (p : PackageInfo) (tree : list tree_item) : list string :=
  map (fun f => if negb (Js.is_empty (basePath p))
                then remove_first f (basePath p ++ "/") else f)
      (filter (keep_path p)
              (map path (filter (fun item => String.eqb (type item) "blob") tree))).

Definition listing (p : PackageInfo) (files : list string) : string :=
  "# Source files in " ++ name p ++ Js.nl ++ Js.nl ++
  Js.join Js.nl (map (fun f => "- `" ++ f ++ "`") files) ++
  Js.nl ++ Js.nl ++ "---" ++ Js.nl ++
  "Use `get_package_source` with a `filePath` to read a specific file.".

(** [get_package_source]; [filePath] is [None] when it is omitted. *)
Definition get_package_source (packageId : string) (filePath : option string)
  : Envelope :=
  match findPackage packageId with
  | None => failure (not_found packageId)
  | Some p =>
      let list_all :=
        match fetchGitHubAPI fetch_tree
                ("/repos/" ++ repo p ++ "/git/trees/" ++ branch p ++ "?recursive=1") with
        | Ok tree => success (listing p (list_files p tree))
        | Err m =>
            failure ("Error listing files: " ++ m ++
                     (if negb token_set
                      then Js.nl ++ "Note: Rate limiting may occur without GITHUB_TOKEN configured."
                      else EmptyString))
        end in
      match filePath with
      | None => list_all
      | Some fp =>
          if Js.is_empty fp then list_all
          else
            let fullPath := if negb (Js.is_empty (basePath p))
                            then basePath p ++ "/" ++ fp else fp in
            match fetchRawFile (repo p) (branch p) fullPath with
            | Ok t => success ("// " ++ name p ++ " — " ++ fp ++ Js.nl ++ Js.nl ++ t)
            | Err m => failure ("Error fetching source file: " ++ m)
            end
      end
  end.

Definition pkgIdMatch (repoFullName : string) : string :=
  if String.eqb repoFullName "gaddario98/react-base-form" then "react-form"
  else if String.eqb repoFullName "gaddario98/react-base-queries" then "react-queries"
  else if String.eqb repoFullName "gaddario98/react-base-pages" then "react-pages"
  else "react-core".

Definition render (item : search_item) : string :=
  "**" ++ repository_full_name item ++ " (" ++ pkgIdMatch (repository_full_name item)
  ++ ")** — `" ++ item_path item ++ "`" ++ Js.nl ++
  "[View File on GitHub](" ++ html_url item ++ ")".

Definition search_query (packageId pattern : string) : string :=
  let query := pattern ++ " in:file" in
  match findPackage packageId with
  | Some p =>
      if negb (String.eqb packageId "all") then query ++ " repo:" ++ repo p
      else query ++ " " ++
           Js.join " " (map (fun r => "repo:" ++ r) (Js.dedup [] (map repo PACKAGES)))
  | None =>
      query ++ " " ++
      Js.join " " (map (fun r => "repo:" ++ r) (Js.dedup [] (map repo PACKAGES)))
  end.

(** [search_source] *)
Definition search_source (packageId pattern : string) : Envelope :=
  match fetchGitHubAPI fetch_search
          ("/search/code?q=" ++ encodeURIComponent (search_query packageId pattern)) with
  | Err m =>
      failure ("GitHub API Search Error: " ++ m ++ Js.nl ++ Js.nl ++
               "Note: GitHub Code Search requires authentication. Make sure GITHUB_TOKEN is set in your environment.")
  | Ok data =>
      match items data with
      | None | Some [] =>
          success ("No results found on GitHub for pattern " ++ Js.dq ++ pattern ++ Js.dq
                   ++ " in " ++
                   (if String.eqb packageId "all" then "any package" else packageId))
      | Some its =>
          success ("# GitHub Search results for " ++ Js.dq ++ pattern ++ Js.dq
                   ++ Js.nl ++ Js.nl ++
                   "Found " ++ Js.of_nat (total_count data) ++
                   " files containing the pattern:" ++ Js.nl ++ Js.nl ++
                   Js.join (Js.nl ++ Js.nl) (map render its) ++ Js.nl ++ Js.nl ++
                   "Use `get_package_source` to read the specific contents of a file.")
      end
  end.

(** The text of [`${JSON.parse(text).version}`]; [None] when the parse or
    the access throws. *)
Variable version_of : string -> option string.

Definition package_entry (p : PackageInfo) : string :=
  "### " ++ name p ++ Js.nl ++
  "- **ID**: `" ++ id p ++ "`" ++ Js.nl ++
  "- **Description**: " ++ description p ++ Js.nl ++
  "- **GitHub**: " ++ github p.

(** The version of the root manifest, or [unknown]. *)
Definition manifest_version : string :=
  match fetchRawFile "gaddario98/react-core" "master" "package.json" with
  | Ok manifest =>
      match version_of manifest with
      | Some v => v
      | None => "unknown"
      end
  | Err _ => "unknown"
  end.

(** [list_packages] *)
Definition list_packages : Envelope :=
  success ("# @gaddario98 React Packages (v" ++ manifest_version ++ ")" ++ Js.nl ++ Js.nl
           ++ Js.join (Js.nl ++ Js.nl) (map package_entry PACKAGES)
           ++ Js.nl ++ Js.nl ++ "---" ++ Js.nl ++ Js.nl ++
           "**Usage**:" ++ Js.nl ++
           "Use `get_package_docs` to read the full README, `get_package_types` for TypeScript types, or `search_source` to find specific patterns.").

(** The resources registered for the packages, one README each. *)
Definition readme_resources : list Resource :=
  map (fun p =>
         {| resource_name := id p ++ "-readme";
            resource_uri := "docs://" ++ id p ++ "/readme";
            resource_description := name p ++ " — full README documentation";
            resource_mimeType := "text/markdown";
            resource_text :=
              match fetchRawFile (repo p) (branch p) (readmePath p) with
              | Ok t => t
              | Err m => "Error loading README: " ++ m
              end |})
      PACKAGES.

End Server.

End Remote.

(* ------------------------------------------------------------------ *)
(** ** The search as the specification words it

    A line matches when the expression matches somewhere in it; the
    matches of a file are its matching lines, numbered from one and
    trimmed, in ascending order; the matches of a package are those of
    its files in the order of the enumeration; the matches of a search
    are those of its packages in order, each with the package id; and
    the result is the first [maxResults] of them. *)

Module SearchSpec.

Import Local.

Section Spec.
Context {E : RegExp.Engine}.
Variable fs : Fs.node.

Definition line_matches (r : RegExp.regex) (l : string) : bool :=
  match RegExp.exec_from r l 0 with
  | Some _ => true
  | None => false
  end.

(** The lines with their indices, the first index being [i]. *)
Definition numbered (i : nat) (lines : list string) : list (nat * string) :=
  combine (seq i (length lines)) lines.

Definition matching_lines (r : RegExp.regex) (f : string) (i : nat)
           (lines : list string) : list Match :=
  map (fun il => {| file := f; line := fst il + 1; content := Js.trim (snd il) |})
      (filter (fun il => line_matches r (snd il)) (numbered i lines)).

Definition file_matches (r : RegExp.regex) (p : PackageInfo) (f : string)
  : list Match :=
  match Fs.readFileSync fs (Path.join [dir p; f]) with
  | Some text => matching_lines r f 0 (Js.split Js.nl_char text)
  | None => []
  end.

Definition package_matches (r : RegExp.regex) (p : PackageInfo)
           (files : list string) : list Match :=
  flat_map (file_matches r p) files.

(** The files of a package; none when the enumeration fails. *)
Definition files_of (p : PackageInfo) : list string :=
  match collectSourceFiles fs (dir p) with
  | Some files => files
  | None => []
  end.

Definition all_matches (r : RegExp.regex) (pkgs : list PackageInfo) : list Hit :=
  flat_map (fun p => map (tag p) (package_matches r p (files_of p))) pkgs.

Definition truncate {A : Type} (maxResults : Z) (l : list A) : list A :=
  firstn (Z.to_nat maxResults) l.

(** The pattern occurs in the line, up to case folding. *)
Definition ci_includes (l pattern : string) : bool :=
  match RegExp.ci_find RegExp.canonicalize pattern l 0 0 with
  | Some _ => true
  | None => false
  end.

(** The file of the listing can be read. *)
Definition readable (p : PackageInfo) (f : string) : bool :=
  match Fs.readFileSync fs (Path.join [dir p; f]) with
  | Some _ => true
  | None => false
  end.

(** The reads of the files of a listing, in order. *)
Definition read_events (p : PackageInfo) (files : list string) : list event :=
  map (fun f => ReadFile (Path.join [dir p; f])) files.

(** What a hit of a search is: a line of a readable file of the listing
    of a package, matched by the expression of the search. *)
Definition real_hit (pattern : string) (p : PackageInfo) (h : Hit) : Prop :=
  pkg h = id p
  /\ exists files r f txt i l,
      collectSourceFiles fs (dir p) = Some files
      /\ search_regex pattern = Some r
      /\ In f files
      /\ Fs.readFileSync fs (Path.join [dir p; f]) = Some txt
      /\ nth_error (Js.split Js.nl_char txt) i = Some l
      /\ line_matches r l = true
      /\ hit h = {| file := f; line := i + 1; content := Js.trim l |}.

End Spec.

End SearchSpec.

(* ------------------------------------------------------------------ *)
(** ** Path safety, as the specification words it *)

Module PathSpec.

Fixpoint is_prefix (xs ys : list string) : bool :=
  match xs, ys with
  | [], _ => true
  | x :: xs', y :: ys' => String.eqb x y && is_prefix xs' ys'
  | _ :: _, [] => false
  end.

(** The resolved path [p] is the directory [rootDir] or lies under it. *)
Definition within (rootDir p : string) : bool :=
  is_prefix (Path.resolved rootDir) (Path.resolved p).

(** A name that a directory entry can have. *)
Definition entry_name (s : string) : bool :=
  negb (Js.is_empty s) && negb (Js.includes s "/")
  && negb (String.eqb s ".") && negb (String.eqb s "..").

(** An absolute path in normal form: a slash before each of its entry
    names, and at least one of them. *)
Definition normal_absolute (p : string) : bool :=
  match Path.segments p with
  | e :: s :: rest => Js.is_empty e && forallb entry_name (s :: rest)
  | _ => false
  end.

(** The absolute path with the given entry names. *)
Definition absolute (names : list string) : string := "/" ++ Js.join "/" names.

(** The path ends in one of the four extensions of source files. *)
Definition source_path (f : string) : bool :=
  existsb (Js.endsWith f) [".ts"; ".tsx"; ".js"; ".jsx"].

(** No component of the path is one of the five ignored names. *)
Definition free_of_ignored (f : string) : bool :=
  forallb (fun c => negb (existsb (String.eqb c)
                            ["node_modules"; "dist"; ".git"; ".github"; ".claude"]))
          (Path.segments f).

(** What the listing of source files promises of a path. *)
Definition listed_well (f : string) : Prop :=
  source_path f = true /\ free_of_ignored f = true.

Definition no_slash (x : string) : Prop := Js.includes x "/" = false.

Definition names (l : list string) : Prop := Forall (fun s => entry_name s = true) l.

(** A name that the enumeration does not skip. *)
Definition kept (c : string) : Prop := Local.has Local.IGNORE c = false.

(** No directory of the tree has two entries of one name. *)
Fixpoint distinct_names (n : Fs.node) : bool :=
  match n with
  | Fs.File _ => true
  | Fs.Dir entries =>
      (fix all (es : list (string * Fs.node)) : bool :=
         match es with
         | [] => true
         | (entry, child) :: rest =>
             negb (existsb (fun e => String.eqb (fst e) entry) rest)
             && distinct_names child && all rest
         end) entries
  end.

(** A source file below the directory [n], at the end of the path of
    entry names [comps]: no name of the path is skipped, and the name of
    the file has a source extension. *)
Definition source_file_at (n : Fs.node) (comps : list string) : Prop :=
  comps <> []
  /\ Forall kept comps
  /\ Local.has Local.extensions (Path.extname (last comps EmptyString)) = true
  /\ exists c, Fs.walk n comps = Some (Fs.File c).

(** Every entry of the tree has an entry name. *)
Fixpoint well_named (n : Fs.node) : bool :=
  match n with
  | Fs.File _ => true
  | Fs.Dir entries =>
      (fix all (es : list (string * Fs.node)) : bool :=
         match es with
         | [] => true
         | (entry, child) :: rest => entry_name entry && well_named child && all rest
         end) entries
  end.

End PathSpec.

(* ------------------------------------------------------------------ *)
(** ** The aggregate of types, as the specification words it

    One banner for every other package that has a types file, in the
    order of the registry; a banner holds the text of the file, or a
    marker when the file cannot be had. *)

Module TypesSpec.

Definition aggregate_header : string :=
  "// @gaddario98/react-core aggregated types" ++ Js.nl ++
  "// The core package re-exports from sub-modules:" ++ Js.nl ++ Js.nl.

Definition local_others (root : string) (p : Local.PackageInfo)
  : list Local.PackageInfo :=
  filter (fun q => match Local.typesPath q with
                   | Some _ => negb (String.eqb (Local.id q) (Local.id p))
                   | None => false
                   end)
         (Local.PACKAGES root).

Definition local_banner (root : string) (fs : Fs.node) (q : Local.PackageInfo)
  : string :=
  match Local.typesPath q with
  | Some t =>
      "// ═══ " ++ Local.name q ++ " types ═══" ++ Js.nl ++
      "// File: " ++ Path.relative root t ++ Js.nl ++ Js.nl ++
      match Fs.readFileSync fs t with
      | Some c => c
      | None => "Error: file not found at " ++ t
      end
  | None => EmptyString
  end.

Definition remote_others (p : Remote.PackageInfo) : list Remote.PackageInfo :=
  filter (fun q => match Remote.typesPath q with
                   | Some _ => negb (String.eqb (Remote.id q) (Remote.id p))
                   | None => false
                   end)
         Remote.PACKAGES.

Definition remote_banner (fetch_text : string -> Net.result (Net.response string))
           (q : Remote.PackageInfo) : string :=
  match Remote.typesPath q with
  | Some t =>
      match Remote.fetchRawFile fetch_text (Remote.repo q) (Remote.branch q) t with
      | Net.Ok c =>
          "// ═══ " ++ Remote.name q ++ " types ═══" ++ Js.nl ++
          "// File: " ++ t ++ Js.nl ++ Js.nl ++ c
      | Net.Err _ => "// ═══ " ++ Remote.name q ++ " types: Not Available ═══"
      end
  | None => EmptyString
  end.

End TypesSpec.

(* ------------------------------------------------------------------ *)
(** ** A small installation, for the examples *)

Module Example.

Definition root : string := "/srv/react-base-core".

Definition index_ts : string :=
  "import x" ++ Js.nl ++ "  const useForm = 1;  " ++ Js.nl ++ "foo(".

Definition useForm_tsx : string :=
  "useForm useform" ++ Js.nl ++ "USEFORM" ++ Js.nl ++ "  a(b".

Definition disk : Fs.node :=
  Fs.Dir
    [("srv",
      Fs.Dir
        [("react-base-core",
          Fs.Dir
            [("README.md", Fs.File (Some "# core"));
             ("index.ts", Fs.File (Some index_ts));
             ("dist", Fs.Dir [("a.ts", Fs.File (Some "useForm"))]);
             ("node_modules", Fs.Dir [("dep", Fs.Dir [("x.js", Fs.File (Some "useForm"))])]);
             ("form",
              Fs.Dir
                [("README.md", Fs.File (Some "# form"));
                 ("types.ts", Fs.File (Some "export type A = 1;"));
                 ("notes.md", Fs.File (Some "useForm"));
                 ("hooks", Fs.Dir [("useForm.tsx", Fs.File (Some useForm_tsx))])])]);
         ("react-base-core.bak",
          Fs.Dir [("secret.ts", Fs.File (Some "SECRET"))])])].

(** A disk without the installation. *)
Definition empty_disk : Fs.node := Fs.Dir [].

(** A host that serves the types of one repository and nothing else. *)
Definition fetch_text (url : string) : Net.result (Net.response string) :=
  if String.eqb url "https://raw.githubusercontent.com/gaddario98/react-base-form/master/types.ts"
  then Net.Ok {| Net.ok := true; Net.status := 200; Net.statusText := "OK";
                 Net.body := "export type F = 1;" |}
  else Net.Ok {| Net.ok := false; Net.status := 404; Net.statusText := "Not Found";
                 Net.body := EmptyString |}.

(** A tree listing of the hosting API. *)
Definition tree : list Net.tree_item :=
  [ {| Net.type := "tree"; Net.path := "src" |};
    {| Net.type := "blob"; Net.path := "src/index.ts" |};
    {| Net.type := "blob"; Net.path := "src/dist/out.js" |};
    {| Net.type := "blob"; Net.path := "node_modules/dep/x.js" |};
    {| Net.type := "blob"; Net.path := "README.md" |};
    {| Net.type := "blob"; Net.path := "hooks/useForm.tsx" |} ].

Definition fetch_tree (url : string) : Net.result (Net.response (list Net.tree_item)) :=
  Net.Ok {| Net.ok := true; Net.status := 200; Net.statusText := "OK";
            Net.body := tree |}.

(** A code search that finds nothing, whatever the query. *)
Definition fetch_search (url : string) : Net.result (Net.response Net.search_data) :=
  Net.Ok {| Net.ok := true; Net.status := 200; Net.statusText := "OK";
            Net.body := {| Net.total_count := 0; Net.items := Some [] |} |}.


Definition react_form : Local.PackageInfo :=
  {| Local.id := "react-form";
     Local.name := "@gaddario98/react-form";
     Local.description := "Dynamic, type-safe form builder on TanStack React Form with Jotai state";
     Local.dir := "/srv/react-base-core/form";
     Local.readmePath := "/srv/react-base-core/form/README.md";
     Local.typesPath := Some "/srv/react-base-core/form/types.ts";
     Local.github := "https://github.com/gaddario98/react-form" |}.

End Example.

(* ================================================================== *)
(** * Properties *)

(* ------------------------------------------------------------------ *)
(** ** The scan of a package *)

Section ScanFacts.
Context {E : RegExp.Engine}.
Variable fs : Fs.node.

Import Local SearchSpec.

Lemma test_at_zero (r : RegExp.regex) (l : string) :
  RegExp.test r 0 l =
  (line_matches r l, match RegExp.exec_from r l 0 with Some e => e | None => 0%nat end).
Proof.
  unfold RegExp.test, line_matches. simpl.
  destruct (RegExp.exec_from r l 0); reflexivity.
Qed.

Lemma matching_lines_nil r f i : matching_lines r f i [] = [].
Proof. reflexivity. Qed.

Lemma matching_lines_cons r f i l rest :
  matching_lines r f i (l :: rest) =
  ((if line_matches r l
    then [{| file := f; line := i + 1; content := Js.trim l |}] else [])
     ++ matching_lines r f (S i) rest)%list.
Proof.
  unfold matching_lines, numbered. simpl.
  destruct (line_matches r l); reflexivity.
Qed.

Lemma reached_false_cap m (rs : list Match) :
  reached m rs = false ->
  exists k, Z.to_nat (m - Z.of_nat (length rs)) = S k /\
            Z.to_nat (m - Z.of_nat (length rs + 1)) = k.
Proof.
  unfold reached. intros H. apply Z.leb_gt in H.
  exists (Z.to_nat (m - Z.of_nat (length rs)) - 1)%nat. lia.
Qed.

Lemma reached_true_cap m (rs : list Match) :
  reached m rs = true -> Z.to_nat (m - Z.of_nat (length rs)) = 0%nat.
Proof. unfold reached. intros H. apply Z.leb_le in H. lia. Qed.

(** The loop over the lines, entered with [lastIndex] at zero, leaves
    it at zero and adds the first matching lines up to the cap. *)
Lemma scan_lines_stateless r f m lines :
  forall i st,
    lastIndex st = 0%nat ->
    let st' := scan_lines r f m i lines st in
    results st' =
      (results st ++
       firstn (Z.to_nat (m - Z.of_nat (length (results st))))
              (matching_lines r f i lines))%list
    /\ lastIndex st' = 0%nat
    /\ reads st' = reads st.
Proof.
  induction lines as [|l rest IH]; intros i st H0; cbn zeta.
  - simpl. rewrite firstn_nil, app_nil_r. auto.
  - simpl scan_lines. destruct (reached m (results st)) eqn:Hr.
    + rewrite (reached_true_cap _ _ Hr). simpl. rewrite app_nil_r. auto.
    + rewrite H0, test_at_zero. rewrite matching_lines_cons.
      destruct (reached_false_cap _ _ Hr) as [k [Hk Hk']].
      destruct (line_matches r l) eqn:Hl.
      * match goal with |- context [scan_lines r f m (S i) rest ?s] =>
          destruct (IH (S i) s eq_refl) as [R [L D]] end.
        cbn zeta in R, L, D. rewrite R, L, D. simpl results. simpl reads.
        rewrite length_app. simpl length. rewrite Hk, Hk'. simpl.
        rewrite <- app_assoc. auto.
      * destruct (RegExp.exec_from r l 0) eqn:He.
        { unfold line_matches in Hl. rewrite He in Hl. discriminate. }
        match goal with |- context [scan_lines r f m (S i) rest ?s] =>
          destruct (IH (S i) s eq_refl) as [R [L D]] end.
        cbn zeta in R, L, D. rewrite R, L, D. simpl. auto.
Qed.


Lemma cap_after_append m (n0 : nat) (k : nat) :
  forall A (xs : list A),
  k = Z.to_nat (m - Z.of_nat n0) ->
  Z.to_nat (m - Z.of_nat (n0 + length (firstn k xs))) = (k - length xs)%nat.
Proof. intros A xs ->. rewrite length_firstn. lia. Qed.

(** The loop over the files, likewise. *)
Lemma scan_files_stateless r p m files :
  forall st,
    lastIndex st = 0%nat ->
    let st' := scan_files fs r p m files st in
    results st' =
      (results st ++
       firstn (Z.to_nat (m - Z.of_nat (length (results st))))
              (package_matches fs r p files))%list
    /\ lastIndex st' = 0%nat.
Proof.
  induction files as [|f rest IH]; intros st H0; cbn zeta.
  - simpl. rewrite firstn_nil, app_nil_r. auto.
  - simpl scan_files. destruct (reached m (results st)) eqn:Hr.
    + rewrite (reached_true_cap _ _ Hr). simpl. rewrite app_nil_r. auto.
    + unfold package_matches. simpl flat_map. fold (package_matches fs r p rest).
      unfold file_matches at 1.
      destruct (Fs.readFileSync fs (Path.join [dir p; f])) as [text|] eqn:Hread.
      * match goal with |- context [scan_lines r f m 0 ?ls ?s] =>
          destruct (scan_lines_stateless r f m ls 0%nat s H0) as [R [L _]];
          destruct (IH (scan_lines r f m 0 ls s) L) as [R' L']
        end.
        cbn zeta in R, R', L'. simpl results in R. split; [|exact L'].
        rewrite R', R. rewrite length_app.
        rewrite firstn_app, <- app_assoc. f_equal. f_equal. f_equal.
        apply cap_after_append. reflexivity.
      * match goal with |- context [scan_files fs r p m rest ?s] =>
          destruct (IH s H0) as [R' L'] end.
        cbn zeta in R', L'. simpl in R'. auto.
Qed.

Lemma searchInPackage_stateless p pattern m files r :
  collectSourceFiles fs (dir p) = Some files ->
  search_regex pattern = Some r ->
  exists evs,
    searchInPackage fs p pattern m =
    Some (truncate m (package_matches fs r p files), evs).
Proof.
  intros Hc Hr. unfold searchInPackage. rewrite Hc, Hr.
  match goal with |- context [scan_files fs r p m files ?s] =>
    destruct (scan_files_stateless r p m files s eq_refl) as [R _] end.
  cbn zeta in R. simpl in R. rewrite Z.sub_0_r in R.
  eexists. rewrite R. reflexivity.
Qed.


Lemma files_of_some p files :
  collectSourceFiles fs (dir p) = Some files -> files_of fs p = files.
Proof. unfold files_of. intros ->. reflexivity. Qed.

(** The loop over the packages adds the first matches of the packages
    up to the cap. *)
Lemma search_packages_stateless pattern m r pkgs :
  search_regex pattern = Some r ->
  (forall p, In p pkgs -> collectSourceFiles fs (dir p) <> None) ->
  forall allResults trace,
  exists trace',
    search_packages fs pattern m pkgs allResults trace =
    Some ((allResults ++
           firstn (Z.to_nat (m - Z.of_nat (length allResults)))
                  (all_matches fs r pkgs))%list, trace').
Proof.
  intros Hr. induction pkgs as [|p rest IH]; intros Hdirs allResults trace.
  - simpl. rewrite firstn_nil, app_nil_r. eauto.
  - simpl search_packages.
    destruct (collectSourceFiles fs (dir p)) as [files|] eqn:Hc;
      [|exfalso; apply (Hdirs p); [left; reflexivity|exact Hc]].
    destruct (searchInPackage_stateless p pattern
                (m - Z.of_nat (length allResults)) files r Hc Hr) as [evs Hs].
    rewrite Hs. unfold all_matches. simpl flat_map. fold (all_matches fs r rest).
    rewrite (files_of_some p files Hc). rewrite firstn_app.
    unfold truncate. rewrite <- firstn_map, app_assoc.
    set (all' := (allResults ++ _)%list).
    destruct (m <=? Z.of_nat (length all'))%Z eqn:Hcap.
    + eexists. f_equal. f_equal.
      replace (Z.to_nat (m - Z.of_nat (length allResults))
               - length (map (tag p) (package_matches fs r p files)))%nat with 0%nat.
      { simpl. rewrite app_nil_r. reflexivity. }
      apply Z.leb_le in Hcap. subst all'.
      rewrite length_app, length_firstn in Hcap. lia.
    + destruct (IH (fun q Hq => Hdirs q (or_intror Hq)) all' (trace ++ evs)%list)
        as [tr' Htr].
      rewrite Htr. eexists. f_equal. f_equal. f_equal. f_equal.
      subst all'. rewrite length_app, length_firstn. lia.
Qed.

(** *** The cap *)



Lemma scan_lines_capped r f m i lines st :
  reached m (results st) = true -> scan_lines r f m i lines st = st.
Proof. intros H. destruct lines; simpl; [reflexivity|]. rewrite H. reflexivity. Qed.





(** *** Stopping *)


Lemma scan_lines_stop r f m lines1 lines2 :
  forall i st,
  reached m (results (scan_lines r f m i lines1 st)) = true ->
  scan_lines r f m i (lines1 ++ lines2) st = scan_lines r f m i lines1 st.
Proof.
  induction lines1 as [|l rest IH]; intros i st H.
  - simpl in *. apply scan_lines_capped. exact H.
  - simpl in *. destruct (reached m (results st)); [reflexivity|].
    destruct (RegExp.test r (lastIndex st) l) as [found li].
    destruct found; apply IH; exact H.
Qed.



End ScanFacts.

(* ------------------------------------------------------------------ *)
(** ** Escaped patterns *)

Lemma escape_class_syntax (c : ascii) :
  existsb (Ascii.eqb c) Local.escape_class = RegExp.is_syntax_character c.
Proof.
  destruct c as [[] [] [] [] [] [] [] []]; reflexivity.
Qed.

(** The escaped pattern is the literal source of the pattern. *)
Lemma escape_literal_source (p : string) :
  Local.escape p = RegExp.literal_source p.
Proof.
  induction p as [|c p IH]; [reflexivity|].
  cbn [Local.escape RegExp.literal_source].
  rewrite escape_class_syntax, IH. reflexivity.
Qed.

Section Occurrences.
Variable canon : ascii -> ascii.

Lemma startsWith_ci (s p : string) :
  Js.startsWith s p = true -> RegExp.ci_startsWith canon s p = true.
Proof.
  revert s. induction p as [|c p IH]; intros s H; simpl in *; [reflexivity|].
  destruct s as [|d s]; [discriminate|].
  apply andb_true_iff in H. destruct H as [Hc Hs].
  apply Ascii.eqb_eq in Hc. subst d.
  rewrite Ascii.eqb_refl. simpl. apply IH. exact Hs.
Qed.

Lemma includes_ci_find (s p : string) :
  forall k, Js.includes s p = true -> RegExp.ci_find canon p s k 0 <> None.
Proof.
  induction s as [|c s IH]; intros k H.
  - simpl in *. rewrite orb_false_r in H.
    rewrite (startsWith_ci _ _ H). discriminate.
  - simpl in H. simpl RegExp.ci_find.
    destruct (RegExp.ci_startsWith canon (String c s) p) eqn:Hc; [discriminate|].
    apply orb_true_iff in H. destruct H as [H|H].
    + rewrite (startsWith_ci _ _ H) in Hc. discriminate.
    + simpl. apply IH. exact H.
Qed.
End Occurrences.

Section FallbackFacts.
Context {E : RegExp.Engine} {L : RegExp.Laws E}.

Import Local SearchSpec.

(** A pattern that is not an expression is searched for literally. *)
Lemma search_regex_fallback (pattern : string) :
  RegExp.compile pattern = None ->
  exists r, search_regex pattern = Some r /\
            forall s i, RegExp.exec_from r s i
                        = RegExp.literal_exec RegExp.canonicalize pattern s i.
Proof.
  intros H. unfold search_regex. rewrite H, escape_literal_source.
  apply RegExp.literal_atoms.
Qed.

Lemma search_regex_total (pattern : string) :
  exists r, search_regex pattern = Some r.
Proof.
  destruct (RegExp.compile pattern) as [r|] eqn:H.
  - exists r. unfold search_regex. rewrite H. reflexivity.
  - destruct (search_regex_fallback pattern H) as [r [Hr _]]. eauto.
Qed.

Lemma literal_line_matches (r : RegExp.regex) (pattern l : string) :
  (forall s i, RegExp.exec_from r s i
               = RegExp.literal_exec RegExp.canonicalize pattern s i) ->
  line_matches r l = ci_includes l pattern.
Proof.
  intros H. unfold line_matches, ci_includes. rewrite H.
  unfold RegExp.literal_exec.
  destruct (RegExp.ci_find RegExp.canonicalize pattern l 0 0); reflexivity.
Qed.

Lemma includes_ci_includes (l pattern : string) :
  Js.includes l pattern = true -> ci_includes l pattern = true.
Proof.
  intros H. unfold ci_includes.
  pose proof (includes_ci_find RegExp.canonicalize l pattern 0%nat H).
  destruct (RegExp.ci_find RegExp.canonicalize pattern l 0 0); congruence.
Qed.
End FallbackFacts.

(* ------------------------------------------------------------------ *)
(** ** Matches of a file *)

Section MatchFacts.
Context {E : RegExp.Engine}.
Variable fs : Fs.node.
Import Local SearchSpec.

Lemma numbered_nth (lines : list string) :
  forall s i l,
    nth_error lines i = Some l -> In ((s + i)%nat, l) (numbered s lines).
Proof.
  unfold numbered.
  induction lines as [|x rest IH]; intros s i l H.
  - destruct i; discriminate.
  - destruct i as [|i]; simpl in *.
    + injection H as ->. left. f_equal. lia.
    + right. replace (s + S i)%nat with (S s + i)%nat by lia. apply IH. exact H.
Qed.

Lemma numbered_In (lines : list string) :
  forall s i l,
    In (i, l) (numbered s lines) ->
    (s <= i)%nat /\ nth_error lines (i - s) = Some l.
Proof.
  unfold numbered.
  induction lines as [|x rest IH]; intros s i l H; simpl in H; [contradiction|].
  destruct H as [H|H].
  - injection H as <- <-. rewrite Nat.sub_diag. auto.
  - apply IH in H. destruct H as [Hle Hn]. split; [lia|].
    replace (i - s)%nat with (S (i - S s))%nat by lia. exact Hn.
Qed.

(** A matching line of a file is among the matches of the file, with
    its number counted from one and its text trimmed. *)
Lemma matching_lines_In r f lines i l :
  nth_error lines i = Some l ->
  line_matches r l = true ->
  In {| file := f; line := i + 1; content := Js.trim l |}
     (matching_lines r f 0 lines).
Proof.
  intros Hn Hm. unfold matching_lines.
  apply (in_map (fun il => {| file := f; line := fst il + 1;
                              content := Js.trim (snd il) |}) _ (i, l)).
  apply filter_In. split; [|exact Hm].
  apply (numbered_nth lines 0%nat i l Hn).
Qed.

Lemma matching_lines_inv r f lines m :
  In m (matching_lines r f 0 lines) ->
  exists i l, nth_error lines i = Some l /\ line_matches r l = true /\
              m = {| file := f; line := i + 1; content := Js.trim l |}.
Proof.
  unfold matching_lines. intros H. apply in_map_iff in H.
  destruct H as [[i l] [<- H]]. apply filter_In in H. destruct H as [H Hm].
  apply numbered_In in H. destruct H as [_ H]. rewrite Nat.sub_0_r in H.
  exists i, l. auto.
Qed.

Lemma package_matches_In r p files f txt i l :
  In f files ->
  Fs.readFileSync fs (Path.join [dir p; f]) = Some txt ->
  nth_error (Js.split Js.nl_char txt) i = Some l ->
  line_matches r l = true ->
  In {| file := f; line := i + 1; content := Js.trim l |}
     (package_matches fs r p files).
Proof.
  intros Hf Hr Hn Hm. unfold package_matches. apply in_flat_map.
  exists f. split; [exact Hf|]. unfold file_matches. rewrite Hr.
  apply matching_lines_In; assumption.
Qed.
End MatchFacts.

(* ------------------------------------------------------------------ *)
(** ** The engine of literal patterns *)

Lemma not_syntax_not_bslash (c : ascii) :
  RegExp.is_syntax_character c = false -> Ascii.eqb c Js.bslash_char = false.
Proof.
  destruct c as [[] [] [] [] [] [] [] []]; simpl; intros H;
    first [reflexivity | discriminate].
Qed.

Lemma decode_literal_source (p : string) :
  LiteralEngine.decode (RegExp.literal_source p) = Some p.
Proof.
  induction p as [|c p IH]; [reflexivity|].
  cbn [RegExp.literal_source].
  destruct (RegExp.is_syntax_character c) eqn:Hc.
  - cbn [LiteralEngine.decode]. rewrite Ascii.eqb_refl, Hc, IH. reflexivity.
  - cbn [LiteralEngine.decode].
    rewrite (not_syntax_not_bslash c Hc), Hc, IH. reflexivity.
Qed.

Lemma literal_engine_laws : RegExp.Laws LiteralEngine.engine.
Proof.
  constructor. intros p. exists p. split.
  - apply decode_literal_source.
  - intros s i. reflexivity.
Qed.

(* ------------------------------------------------------------------ *)
(** ** Properties of the search *)

Section SearchProperties.
Context {E : RegExp.Engine}.
Import Local SearchSpec.

Lemma truncate_all {A : Type} (m : Z) (l : list A) :
  (Z.of_nat (length l) <= m)%Z -> truncate m l = l.
Proof. intros H. unfold truncate. apply firstn_all2. lia. Qed.

Lemma matching_lines_above r f lines :
  forall i, Forall (fun n => (i < n)%nat) (map line (matching_lines r f i lines)).
Proof.
  induction lines as [|l rest IH]; intros i.
  - constructor.
  - rewrite matching_lines_cons, map_app. apply Forall_app. split.
    + destruct (line_matches r l); simpl; constructor; [lia|constructor].
    + eapply Forall_impl; [|apply (IH (S i))]. simpl. intros. lia.
Qed.

(** The line numbers of the matches of a file are strictly ascending. *)
Lemma matching_lines_ascending r f lines :
  forall i, StronglySorted lt (map line (matching_lines r f i lines)).
Proof.
  induction lines as [|l rest IH]; intros i.
  - constructor.
  - rewrite matching_lines_cons, map_app.
    destruct (line_matches r l); simpl; [|apply IH].
    constructor; [apply IH|].
    eapply Forall_impl; [|apply (matching_lines_above r f rest (S i))].
    simpl. intros. lia.
Qed.


(** C8. The matches of a search are the first [maxResults] of: for
    each package in order, for each of its files in the order of the
    enumeration, the matching lines of the file; every match has the
    number of its line counted from one and the trimmed text of that
    line, and the line numbers of the matches of a file are strictly
    ascending, so that a line is recorded at most once. *)
Theorem search_matches_ordered (root : string) (fs : Fs.node)
        (packageId pattern : string) (maxResults : Z) (r : RegExp.regex) :
  search_regex pattern = Some r ->
  (forall p, In p (packagesToSearch root packageId) ->
             collectSourceFiles fs (dir p) <> None) ->
  (exists tr,
      search_all root fs packageId pattern maxResults
      = Some (truncate maxResults
                (all_matches fs r (packagesToSearch root packageId)), tr))
  /\ (forall f lines m,
         In m (matching_lines r f 0 lines) <->
         exists i l, nth_error lines i = Some l /\ line_matches r l = true /\
                     m = {| file := f; line := i + 1; content := Js.trim l |})
  /\ (forall f lines, StronglySorted lt (map line (matching_lines r f 0 lines))).
Proof.
  intros Hr Hdirs. split; [|split].
  - unfold search_all.
    destruct (search_packages_stateless fs pattern maxResults r
                (packagesToSearch root packageId) Hr Hdirs [] []) as [tr Htr].
    exists tr. rewrite Htr. simpl. rewrite Z.sub_0_r. reflexivity.
  - intros f lines m. split.
    + apply matching_lines_inv.
    + intros [i [l [Hn [Hm ->]]]]. apply matching_lines_In; assumption.
  - intros. apply matching_lines_ascending.
Qed.

(** C10. The search of a package is a function of the files, the
    pattern and the cap alone: every line is tested with [lastIndex]
    at zero, so whether a line is reported depends on that line only,
    and the result is the first [maxResults] matching lines of the
    files in order. *)
Theorem searchInPackage_deterministic (fs : Fs.node) (p : PackageInfo)
        (pattern : string) (maxResults : Z) (files : list string)
        (r : RegExp.regex) :
  collectSourceFiles fs (dir p) = Some files ->
  search_regex pattern = Some r ->
  (exists evs,
      searchInPackage fs p pattern maxResults
      = Some (truncate maxResults (package_matches fs r p files), evs))
  /\ (forall f i lines st,
         lastIndex st = 0%nat ->
         lastIndex (scan_lines r f maxResults i lines st) = 0%nat
         /\ results (scan_lines r f maxResults i lines st)
            = (results st ++
               truncate (maxResults - Z.of_nat (length (results st)))
                        (matching_lines r f i lines))%list)
  /\ (forall files' st,
         lastIndex st = 0%nat ->
         lastIndex (scan_files fs r p maxResults files' st) = 0%nat).
Proof.
  intros Hc Hr. split; [|split].
  - apply searchInPackage_stateless; assumption.
  - intros f i lines st H0.
    destruct (scan_lines_stateless r f maxResults lines i st H0) as [R [L _]].
    split; [exact L|exact R].
  - intros files' st H0.
    destruct (scan_files_stateless fs r p maxResults files' st H0) as [_ L].
    exact L.
Qed.

(** C4. A pattern that is not an expression is searched for as
    literal text: the escaped pattern compiles, the search returns,
    a line matches exactly when the pattern occurs in it up to case,
    and every line of a readable file of the package that contains
    the pattern is among the matches, unless the cap cuts it off. *)
Theorem invalid_pattern_literal_fallback (L : RegExp.Laws E)
        (fs : Fs.node) (p : PackageInfo) (pattern : string) (maxResults : Z)
        (files : list string) :
  RegExp.compile pattern = None ->
  collectSourceFiles fs (dir p) = Some files ->
  exists r ms evs,
    search_regex pattern = Some r
    /\ searchInPackage fs p pattern maxResults = Some (ms, evs)
    /\ ms = truncate maxResults (package_matches fs r p files)
    /\ (forall l, line_matches r l = ci_includes l pattern)
    /\ (forall f txt i l,
           In f files ->
           Fs.readFileSync fs (Path.join [dir p; f]) = Some txt ->
           nth_error (Js.split Js.nl_char txt) i = Some l ->
           Js.includes l pattern = true ->
           In {| file := f; line := i + 1; content := Js.trim l |}
              (package_matches fs r p files)
           /\ ((Z.of_nat (length (package_matches fs r p files)) <= maxResults)%Z ->
               In {| file := f; line := i + 1; content := Js.trim l |} ms)).
Proof.
  intros Hbad Hc.
  destruct (search_regex_fallback pattern Hbad) as [r [Hr Hexec]].
  destruct (searchInPackage_stateless fs p pattern maxResults files r Hc Hr)
    as [evs Hs].
  exists r, (truncate maxResults (package_matches fs r p files)), evs.
  repeat split; try assumption.
  - intros l. apply literal_line_matches. exact Hexec.
  - apply package_matches_In with (txt := txt); try assumption.
    rewrite (literal_line_matches r pattern l Hexec).
    apply includes_ci_includes. assumption.
  - intros Hall. rewrite (truncate_all _ _ Hall).
    apply package_matches_In with (txt := txt); try assumption.
    rewrite (literal_line_matches r pattern l Hexec).
    apply includes_ci_includes. assumption.
Qed.

End SearchProperties.

Section SearchExamples.
Import Local SearchSpec.


Lemma search_matches_ordered_witness :
exists tr,
  @search_all LiteralEngine.engine Example.root Example.disk "all" "useform" 3
  = Some (truncate 3
            (@all_matches LiteralEngine.engine Example.disk "useform"
               (packagesToSearch Example.root "all")), tr).
Proof.
refine (proj1 (@search_matches_ordered LiteralEngine.engine Example.root Example.disk
                 "all" "useform" 3 "useform" _ _)).
- reflexivity.
- intros p Hp. simpl in Hp.
  destruct Hp as [<-|[<-|[<-|[<-|[]]]]]; vm_compute; discriminate.
Defined.

Lemma searchInPackage_deterministic_witness :
exists evs,
  @searchInPackage LiteralEngine.engine Example.disk Example.react_form "useform" 20
  = Some (truncate 20
            (@package_matches LiteralEngine.engine Example.disk "useform"
               Example.react_form ["types.ts"; "hooks/useForm.tsx"]), evs).
Proof.
refine (proj1 (@searchInPackage_deterministic LiteralEngine.engine Example.disk
                 Example.react_form "useform" 20 ["types.ts"; "hooks/useForm.tsx"]
                 "useform" _ _)).
- vm_compute. reflexivity.
- reflexivity.
Defined.

Lemma invalid_pattern_literal_fallback_witness :
exists r ms evs,
  @search_regex LiteralEngine.engine "a(" = Some r
  /\ @searchInPackage LiteralEngine.engine Example.disk Example.react_form "a(" 20
     = Some (ms, evs)
  /\ In {| file := "hooks/useForm.tsx"; line := 3; content := "a(b" |}
        (@package_matches LiteralEngine.engine Example.disk r Example.react_form
           ["types.ts"; "hooks/useForm.tsx"]).
Proof.
destruct (@invalid_pattern_literal_fallback LiteralEngine.engine literal_engine_laws
            Example.disk Example.react_form "a(" 20 ["types.ts"; "hooks/useForm.tsx"]
            eq_refl eq_refl)
  as [r [ms [evs [Hr [Hs [_ [_ Hin]]]]]]].
exists r, ms, evs. split; [exact Hr|]. split; [exact Hs|].
refine (proj1 (Hin "hooks/useForm.tsx" Example.useForm_tsx 2%nat "  a(b" _ _ _ _)).
- right. left. reflexivity.
- reflexivity.
- reflexivity.
- reflexivity.
Defined.

End SearchExamples.

(* ------------------------------------------------------------------ *)
(** ** The registry *)

Lemma is_empty_append (a b : string) :
  Js.is_empty a = false -> Js.is_empty (a ++ b) = false.
Proof. destruct a; [discriminate|reflexivity]. Qed.

Lemma normalize_not_empty (p : string) : Js.is_empty (Path.normalize p) = false.
Proof.
  unfold Path.normalize.
  destruct (Js.is_empty p); [reflexivity|].
  destruct (Js.is_empty (Js.join "/" _)) eqn:Hb.
  - destruct (Path.isAbsolute p); [reflexivity|].
    destruct (Js.endsWith p "/"); reflexivity.
  - destruct (Path.isAbsolute p); [reflexivity|].
    destruct (Js.endsWith p "/"); [|exact Hb].
    apply is_empty_append. exact Hb.
Qed.

Lemma join_not_empty (parts : list string) : Js.is_empty (Path.join parts) = false.
Proof.
  unfold Path.join. destruct (filter _ parts); [reflexivity|].
  apply normalize_not_empty.
Qed.

Section RegistryFacts.
Variable root : string.

Lemma local_ids : map Local.id (Local.PACKAGES root)
                  = ["react-core"; "react-form"; "react-queries"; "react-pages"].
Proof. reflexivity. Qed.

Lemma local_not_found_text (packageId : string) :
  Local.not_found root packageId
  = "Package " ++ Js.dq ++ packageId ++ Js.dq
    ++ " not found. Available: react-core, react-form, react-queries, react-pages".
Proof. reflexivity. Qed.

Lemma remote_not_found_text (packageId : string) :
  Remote.not_found packageId
  = "Package " ++ Js.dq ++ packageId ++ Js.dq
    ++ " not found. Available: react-core, react-form, react-queries, react-pages".
Proof. reflexivity. Qed.


Lemma local_findPackage_In (i : string) (p : Local.PackageInfo) :
  Local.findPackage root i = Some p -> In p (Local.PACKAGES root).
Proof. intros H. apply find_some in H. apply H. Qed.

Lemma remote_findPackage_In (i : string) (p : Remote.PackageInfo) :
  Remote.findPackage i = Some p -> In p Remote.PACKAGES.
Proof. intros H. apply find_some in H. apply H. Qed.

Lemma local_has_types_iff (p : Local.PackageInfo) :
  In p (Local.PACKAGES root) ->
  Local.has_types p = match Local.typesPath p with Some _ => true | None => false end.
Proof.
  intros H. simpl in H.
  destruct H as [<-|[<-|[<-|[<-|[]]]]]; unfold Local.has_types; cbn [Local.typesPath];
    try reflexivity; rewrite join_not_empty; reflexivity.
Qed.

Lemma all_is_no_package : Local.findPackage root "all" = None.
Proof. reflexivity. Qed.

End RegistryFacts.

(* ------------------------------------------------------------------ *)
(** ** Properties of the registry and the documents *)

Section DocumentProperties.
Context {E : RegExp.Engine}.


(** C5. For the package without a types path, [get_package_types]
    returns a success envelope: the header, then one banner for each
    other package that has a types path, in the order of the registry.
    A banner holds the text of the types file, or a marker when the
    file cannot be read: no failure of a part makes the whole an
    error. *)
Theorem types_aggregate_never_fails (root : string) (fs : Fs.node)
        (fetch_text : string -> Net.result (Net.response string))
        (packageId : string) :
  (forall p, Local.findPackage root packageId = Some p ->
             Local.typesPath p = None ->
             Local.get_package_types root fs packageId
             = success (TypesSpec.aggregate_header ++
                        Js.join (Js.nl ++ Js.nl)
                          (map (TypesSpec.local_banner root fs)
                               (TypesSpec.local_others root p))))
  /\ (forall p, Remote.findPackage packageId = Some p ->
                Remote.typesPath p = None ->
                Remote.get_package_types fetch_text packageId
                = success (TypesSpec.aggregate_header ++
                           Js.join (Js.nl ++ Js.nl)
                             (map (TypesSpec.remote_banner fetch_text)
                                  (TypesSpec.remote_others p)))).
Proof.
  split.
  - intros p Hf Ht. unfold Local.get_package_types. rewrite Hf.
    unfold Local.has_types at 1. rewrite Ht. cbn [negb].
    pose proof (local_findPackage_In root _ _ Hf) as Hin.
    rewrite (filter_ext_in _ _ _ (local_has_types_iff root)).
    simpl in Hin. destruct Hin as [<-|[<-|[<-|[<-|[]]]]]; try discriminate Ht.
    reflexivity.
  - intros p Hf Ht. unfold Remote.get_package_types. rewrite Hf.
    unfold Remote.has_types at 1. rewrite Ht. cbn [negb].
    pose proof (remote_findPackage_In _ _ Hf) as Hin.
    simpl in Hin. destruct Hin as [<-|[<-|[<-|[<-|[]]]]]; try discriminate Ht.
    reflexivity.
Qed.

(** C6, as the code has it. For a known package whose README can be
    read, both servers return its text as it is, in a success envelope;
    for an unknown package both return an error envelope; when the
    README cannot be read, the remote server returns an error envelope
    and the local server a success envelope whose text says that the
    file was not found. *)
Theorem readme_delivery (root : string) (fs : Fs.node)
        (fetch_text : string -> Net.result (Net.response string))
        (packageId : string) :
  (forall p c, Local.findPackage root packageId = Some p ->
               Fs.readFileSync fs (Local.readmePath p) = Some c ->
               Local.get_package_docs root fs packageId = success c)
  /\ (Local.findPackage root packageId = None ->
      isError (Local.get_package_docs root fs packageId) = true)
  /\ (forall p, Local.findPackage root packageId = Some p ->
                Fs.readFileSync fs (Local.readmePath p) = None ->
                Local.get_package_docs root fs packageId
                = success ("Error: file not found at " ++ Local.readmePath p))
  /\ (forall p c, Remote.findPackage packageId = Some p ->
                  Remote.fetchRawFile fetch_text (Remote.repo p) (Remote.branch p)
                                      (Remote.readmePath p) = Net.Ok c ->
                  Remote.get_package_docs fetch_text packageId = success c)
  /\ (Remote.findPackage packageId = None ->
      isError (Remote.get_package_docs fetch_text packageId) = true)
  /\ (forall p m, Remote.findPackage packageId = Some p ->
                  Remote.fetchRawFile fetch_text (Remote.repo p) (Remote.branch p)
                                      (Remote.readmePath p) = Net.Err m ->
                  Remote.get_package_docs fetch_text packageId
                  = failure ("Error fetching documentation: " ++ m)).
Proof.
  repeat split.
  - intros p c Hf Hr. unfold Local.get_package_docs, Local.readFileSafe.
    rewrite Hf, Hr. reflexivity.
  - intros Hf. unfold Local.get_package_docs. rewrite Hf. reflexivity.
  - intros p Hf Hr. unfold Local.get_package_docs, Local.readFileSafe.
    rewrite Hf, Hr. reflexivity.
  - intros p c Hf Hr. unfold Remote.get_package_docs. rewrite Hf, Hr. reflexivity.
  - intros Hf. unfold Remote.get_package_docs. rewrite Hf. reflexivity.
  - intros p m Hf Hr. unfold Remote.get_package_docs. rewrite Hf, Hr. reflexivity.
Qed.

(** C9. The enumeration of a directory that does not exist is empty,
    and [get_package_source] without a file path, on a package whose
    directory does not exist, returns a success envelope with an empty
    listing. *)
Theorem missing_directory_empty_listing (root : string) (fs : Fs.node)
        (packageId : string) (p : Local.PackageInfo) :
  Local.findPackage root packageId = Some p ->
  Fs.existsSync fs (Local.dir p) = false ->
  (forall d, Fs.existsSync fs d = false -> Local.collectSourceFiles fs d = Some [])
  /\ Local.get_package_source root fs packageId None
     = Some (success ("# Source files in " ++ Local.name p ++ Js.nl ++ Js.nl
                      ++ Js.nl ++ Js.nl ++ "---" ++ Js.nl ++
                      "Use `get_package_source` with a `filePath` to read a specific file.")).
Proof.
  intros Hf He.
  assert (Hmissing : forall d, Fs.existsSync fs d = false ->
                               Local.collectSourceFiles fs d = Some []).
  { intros d Hd. unfold Fs.existsSync in Hd. unfold Local.collectSourceFiles.
    destruct (Fs.lookup fs d); [discriminate|reflexivity]. }
  split; [exact Hmissing|].
  unfold Local.get_package_source. rewrite Hf, (Hmissing _ He). reflexivity.
Qed.

End DocumentProperties.

(** C1, at a file path that leaves the package root for a sibling
    directory whose name extends the name of the root: the guard
    compares the joined path with the root as text, the path passes,
    and the text of the file outside the root is returned. *)
Theorem get_package_source_leaves_root :
  let filePath := "../react-base-core.bak/secret.ts" in
  Path.join [Example.root; filePath] = "/srv/react-base-core.bak/secret.ts"
  /\ PathSpec.within Example.root (Path.join [Example.root; filePath]) = false
  /\ Js.startsWith (Path.join [Example.root; filePath]) Example.root = true
  /\ Local.get_package_source Example.root Example.disk "react-core" (Some filePath)
     = Some (success ("// @gaddario98/react-core — ../react-base-core.bak/secret.ts"
                      ++ Js.nl ++ Js.nl ++ "SECRET")).
Proof. repeat split. Qed.

(** The guard does reject a path that leaves the root for elsewhere. *)
Lemma get_package_source_rejects_etc_passwd :
  Local.get_package_source Example.root Example.disk "react-form"
    (Some "../../etc/passwd")
  = Some (failure "Error: path traversal not allowed").
Proof. reflexivity. Qed.


(** The remote [search_source] treats an unknown id as it treats [all]:
    the query names every repository. *)
Lemma remote_search_query_unknown (packageId pattern : string) :
  Remote.findPackage packageId = None ->
  Remote.search_query packageId pattern = Remote.search_query "all" pattern.
Proof. intros H. unfold Remote.search_query. rewrite H. reflexivity. Qed.

(** C6 does not hold of the local server: a README that cannot be read
    yields a success envelope. *)
Lemma local_docs_unreadable_is_success :
  Local.findPackage Example.root "react-form" = Some Example.react_form
  /\ Fs.readFileSync Example.empty_disk (Local.readmePath Example.react_form) = None
  /\ isError (Local.get_package_docs Example.root Example.empty_disk "react-form") = false.
Proof. repeat split. Qed.


Lemma types_aggregate_never_fails_witness :
  Local.get_package_types Example.root Example.disk "react-core"
  = success (TypesSpec.aggregate_header ++
             Js.join (Js.nl ++ Js.nl)
               (map (TypesSpec.local_banner Example.root Example.disk)
                    (TypesSpec.local_others Example.root
                       (hd Example.react_form (Local.PACKAGES Example.root))))).
Proof.
  refine (proj1 (types_aggregate_never_fails Example.root Example.disk
                   Example.fetch_text "react-core") _ _ _).
  - reflexivity.
  - reflexivity.
Defined.

Lemma readme_delivery_witness :
  Local.get_package_docs Example.root Example.disk "react-form" = success "# form".
Proof.
  refine (proj1 (readme_delivery Example.root Example.disk Example.fetch_text
                   "react-form") Example.react_form "# form" _ _).
  - reflexivity.
  - reflexivity.
Defined.

Lemma missing_directory_empty_listing_witness :
  Local.get_package_source Example.root Example.empty_disk "react-form" None
  = Some (success ("# Source files in @gaddario98/react-form" ++ Js.nl ++ Js.nl
                   ++ Js.nl ++ Js.nl ++ "---" ++ Js.nl ++
                   "Use `get_package_source` with a `filePath` to read a specific file.")).
Proof.
  refine (proj2 (missing_directory_empty_listing Example.root Example.empty_disk
                   "react-form" Example.react_form _ _)).
  - reflexivity.
  - reflexivity.
Defined.

(* ------------------------------------------------------------------ *)
(** ** Strings *)

Lemma sapp_assoc (a b c : string) : (a ++ b) ++ c = a ++ (b ++ c).
Proof. induction a as [|x a IH]; simpl; [reflexivity|]. rewrite IH. reflexivity. Qed.

Lemma sapp_empty_r (a : string) : a ++ EmptyString = a.
Proof. induction a as [|x a IH]; simpl; [reflexivity|]. rewrite IH. reflexivity. Qed.

Lemma slength_app (a b : string) :
  String.length (a ++ b) = (String.length a + String.length b)%nat.
Proof. induction a as [|x a IH]; simpl; [reflexivity|]. rewrite IH. reflexivity. Qed.

Lemma startsWith_refl_app (a b : string) : Js.startsWith (a ++ b) a = true.
Proof.
  induction a as [|x a IH]; simpl; [reflexivity|].
  rewrite Ascii.eqb_refl. exact IH.
Qed.

Lemma includes_app (a b c : string) : Js.includes (a ++ b ++ c) b = true.
Proof.
  induction a as [|x a IH].
  - simpl. destruct (b ++ c) eqn:Hbc; simpl.
    + destruct b; [reflexivity|discriminate].
    + rewrite <- Hbc, startsWith_refl_app. reflexivity.
  - simpl. rewrite IH. apply orb_true_r.
Qed.

Lemma drop_app (a b : string) : Js.drop (String.length a) (a ++ b) = b.
Proof. induction a as [|x a IH]; simpl; [reflexivity|exact IH]. Qed.

Lemma drop_app_more (a b : string) (k : nat) :
  Js.drop (String.length a + k) (a ++ b) = Js.drop k b.
Proof. induction a as [|x a IH]; simpl; [reflexivity|exact IH]. Qed.

Lemma endsWith_app (a e : string) : Js.endsWith (a ++ e) e = true.
Proof.
  unfold Js.endsWith. rewrite slength_app.
  replace (String.length a + String.length e - String.length e)%nat
    with (String.length a) by lia.
  rewrite drop_app, String.eqb_refl.
  apply andb_true_iff. split; [|reflexivity]. apply Nat.leb_le. lia.
Qed.

Lemma endsWith_app_long (a c e : string) :
  (String.length e <= String.length c)%nat ->
  Js.endsWith (a ++ c) e = Js.endsWith c e.
Proof.
  intros H. unfold Js.endsWith. rewrite slength_app.
  replace (String.length a + String.length c - String.length e)%nat
    with (String.length a + (String.length c - String.length e))%nat by lia.
  rewrite drop_app_more.
  replace (String.length e <=? String.length a + String.length c)%nat with true
    by (symmetry; apply Nat.leb_le; lia).
  replace (String.length e <=? String.length c)%nat with true
    by (symmetry; apply Nat.leb_le; lia).
  reflexivity.
Qed.

(** *** Splitting and joining *)

Lemma split_not_nil (sep : ascii) (s : string) : Js.split sep s <> [].
Proof.
  induction s as [|c s IH]; simpl; [discriminate|].
  destruct (Ascii.eqb c sep); [discriminate|].
  destruct (Js.split sep s); discriminate.
Qed.

Lemma join_cons (sep x : string) (l : list string) :
  l <> [] -> Js.join sep (x :: l) = x ++ sep ++ Js.join sep l.
Proof. destruct l; [contradiction|reflexivity]. Qed.

Lemma join_split (sep : ascii) (s : string) :
  Js.join (Js.chr sep) (Js.split sep s) = s.
Proof.
  induction s as [|c s IH]; [reflexivity|].
  simpl Js.split. destruct (Ascii.eqb c sep) eqn:Hc.
  - apply Ascii.eqb_eq in Hc. subst c.
    rewrite join_cons by apply split_not_nil. rewrite IH. reflexivity.
  - pose proof (split_not_nil sep s) as Hne.
    destruct (Js.split sep s) as [|h t]; [contradiction|].
    destruct t as [|h' t'].
    + simpl in *. rewrite IH. reflexivity.
    + rewrite join_cons by discriminate. rewrite join_cons in IH by discriminate.
      rewrite <- IH. reflexivity.
Qed.

Import PathSpec.

Lemma no_slash_cons (c : ascii) (x : string) :
  no_slash (String c x) -> Ascii.eqb c Js.slash_char = false /\ no_slash x.
Proof.
  unfold no_slash. simpl. intros H. apply orb_false_iff in H. destruct H as [H1 H2].
  split; [|exact H2]. rewrite andb_true_r in H1. rewrite Ascii.eqb_sym. exact H1.
Qed.

Lemma split_app_no_slash (x y : string) :
  no_slash x ->
  Js.split Js.slash_char (x ++ y)
  = (x ++ hd EmptyString (Js.split Js.slash_char y)) :: tl (Js.split Js.slash_char y).
Proof.
  induction x as [|c x IH]; intros H.
  - simpl. pose proof (split_not_nil Js.slash_char y).
    destruct (Js.split Js.slash_char y); [contradiction|reflexivity].
  - apply no_slash_cons in H. destruct H as [Hc Hx].
    simpl. rewrite Hc, (IH Hx). reflexivity.
Qed.

Lemma split_no_slash (x : string) :
  no_slash x -> Js.split Js.slash_char x = [x].
Proof.
  intros H. rewrite <- (sapp_empty_r x) at 1.
  rewrite (split_app_no_slash x EmptyString H). simpl. rewrite sapp_empty_r. reflexivity.
Qed.

Lemma split_slash (y : string) :
  Js.split Js.slash_char ("/" ++ y) = EmptyString :: Js.split Js.slash_char y.
Proof. reflexivity. Qed.

(** Joining names with slashes and splitting again gives the names. *)
Lemma split_join (l : list string) :
  l <> [] -> Forall no_slash l ->
  Js.split Js.slash_char (Js.join "/" l) = l.
Proof.
  induction l as [|x l IH]; intros Hne Hl; [contradiction|].
  inversion Hl as [|? ? Hx Hl']; subst.
  destruct l as [|y l'].
  - simpl. apply split_no_slash. exact Hx.
  - rewrite join_cons by discriminate.
    rewrite (split_app_no_slash _ _ Hx), split_slash.
    rewrite IH by (discriminate || assumption).
    simpl. rewrite sapp_empty_r. reflexivity.
Qed.

Lemma join_app (a b : list string) :
  a <> [] -> b <> [] ->
  Js.join "/" (a ++ b) = Js.join "/" a ++ "/" ++ Js.join "/" b.
Proof.
  induction a as [|x a IH]; intros Ha Hb; [contradiction|].
  destruct a as [|y a'].
  - simpl app. rewrite join_cons by exact Hb. reflexivity.
  - change ((x :: y :: a') ++ b)%list with (x :: ((y :: a') ++ b))%list.
    rewrite join_cons by discriminate.
    rewrite IH by (discriminate || assumption).
    rewrite (join_cons "/" x (y :: a')) by discriminate.
    rewrite !sapp_assoc. reflexivity.
Qed.

Lemma endsWith_inv (s e : string) :
  Js.endsWith s e = true -> exists pre, s = pre ++ e.
Proof.
  unfold Js.endsWith. intros H. apply andb_true_iff in H. destruct H as [_ H].
  apply String.eqb_eq in H. rewrite <- H.
  generalize (String.length s - String.length e)%nat. intros k. clear H.
  revert s. induction k as [|k IH]; intros s.
  - exists EmptyString. reflexivity.
  - destruct s as [|c s].
    + exists EmptyString. reflexivity.
    + destruct (IH s) as [pre Hpre]. exists (String c pre).
      simpl. rewrite <- Hpre. reflexivity.
Qed.

(* ------------------------------------------------------------------ *)
(** ** Paths in normal form *)

Lemma entry_name_inv (s : string) :
  entry_name s = true ->
  Js.is_empty s = false /\ no_slash s /\ String.eqb s "." = false
  /\ String.eqb s ".." = false.
Proof.
  unfold entry_name, no_slash. intros H.
  repeat (apply andb_true_iff in H; destruct H as [H ?]).
  repeat match goal with
         | H : negb _ = true |- _ => apply negb_true_iff in H
         end.
  auto.
Qed.

Lemma names_no_slash (l : list string) : names l -> Forall no_slash l.
Proof.
  intros H. eapply Forall_impl; [|exact H].
  intros s Hs. apply entry_name_inv in Hs. tauto.
Qed.

Lemma norm_segs_names (b : bool) (l : list string) :
  names l -> forall stack, Path.norm_segs b stack l = (rev stack ++ l)%list.
Proof.
  induction l as [|s l IH]; intros H stack; simpl.
  - rewrite app_nil_r. reflexivity.
  - inversion H as [|? ? Hs Hl]; subst.
    destruct (entry_name_inv s Hs) as [He [_ [Hd Hdd]]].
    rewrite He, Hd, Hdd. simpl. rewrite (IH Hl). simpl.
    rewrite <- app_assoc. reflexivity.
Qed.

Lemma segments_join (l : list string) :
  l <> [] -> names l -> Path.segments (Js.join "/" l) = l.
Proof. intros Hne H. apply split_join; [exact Hne|apply names_no_slash; exact H]. Qed.

Lemma segments_absolute (l : list string) :
  l <> [] -> names l -> Path.segments (absolute l) = EmptyString :: l.
Proof.
  intros Hne H. unfold absolute, Path.segments. rewrite split_slash.
  f_equal. apply segments_join; assumption.
Qed.

Lemma resolved_absolute (l : list string) :
  l <> [] -> names l -> Path.resolved (absolute l) = l.
Proof.
  intros Hne H. unfold Path.resolved. rewrite (segments_absolute l Hne H).
  simpl. apply (norm_segs_names false l H []).
Qed.

Lemma normal_absolute_inv (p : string) :
  normal_absolute p = true ->
  exists l, l <> [] /\ names l /\ p = absolute l.
Proof.
  unfold normal_absolute. intros H.
  pose proof (join_split Js.slash_char p) as Hj. fold (Path.segments p) in Hj.
  destruct (Path.segments p) as [|e [|s rest]]; try discriminate.
  apply andb_true_iff in H. destruct H as [He Hn].
  destruct e; [|discriminate].
  exists (s :: rest). split; [discriminate|]. split.
  - apply Forall_forall. intros x Hx. apply (proj1 (forallb_forall _ _) Hn x Hx).
  - rewrite <- Hj. rewrite join_cons by discriminate. reflexivity.
Qed.

Lemma join_names_not_empty (l : list string) :
  l <> [] -> names l -> Js.is_empty (Js.join "/" l) = false.
Proof.
  intros Hne H. destruct l as [|x l]; [contradiction|].
  inversion H as [|? ? Hx _]; subst.
  apply entry_name_inv in Hx. destruct Hx as [Hx _].
  destruct l.
  - exact Hx.
  - rewrite join_cons by discriminate. apply is_empty_append. exact Hx.
Qed.

Lemma name_not_trailing (a n : string) :
  entry_name n = true -> Js.endsWith (a ++ n) "/" = false.
Proof.
  intros Hn. destruct (entry_name_inv n Hn) as [He [Hs _]].
  rewrite endsWith_app_long.
  - destruct (Js.endsWith n "/") eqn:H; [|reflexivity].
    apply endsWith_inv in H. destruct H as [pre ->].
    unfold no_slash in Hs.
    rewrite <- (sapp_empty_r "/") in Hs. rewrite includes_app in Hs. discriminate.
  - destruct n; [discriminate|simpl; lia].
Qed.

Lemma absolute_snoc (l : list string) (n : string) :
  l <> [] -> absolute (l ++ [n]) = absolute l ++ "/" ++ n.
Proof.
  intros Hne. unfold absolute. rewrite join_app by (assumption || discriminate).
  simpl Js.join at 2. rewrite !sapp_assoc. reflexivity.
Qed.

(** Joining a directory in normal form and an entry name appends the
    name. *)
Lemma join_absolute (l : list string) (n : string) :
  l <> [] -> names l -> entry_name n = true ->
  Path.join [absolute l; n] = absolute (l ++ [n]).
Proof.
  intros Hne Hl Hn.
  assert (Hln : names (l ++ [n])) by (apply Forall_app; split; [exact Hl|repeat constructor; exact Hn]).
  assert (Hne' : (l ++ [n])%list <> []) by (destruct l; discriminate).
  destruct (entry_name_inv n Hn) as [He _].
  unfold Path.join. cbn [filter]. change (Js.is_empty (absolute l)) with false.
  rewrite He. cbn [negb]. change (Js.join "/" [absolute l; n]) with (absolute l ++ "/" ++ n).
  rewrite <- (absolute_snoc l n Hne).
  unfold Path.normalize.
  change (Js.is_empty (absolute (l ++ [n]))) with false. cbv iota.
  change (Path.isAbsolute (absolute (l ++ [n]))) with true. cbv zeta. cbn [negb].
  rewrite (segments_absolute _ Hne' Hln). cbn [Path.norm_segs Js.is_empty orb].
  rewrite (norm_segs_names false _ Hln []). cbn [rev app].
  rewrite (join_names_not_empty _ Hne' Hln).
  rewrite (absolute_snoc l n Hne), <- sapp_assoc, (name_not_trailing _ n Hn).
  rewrite sapp_assoc, <- (absolute_snoc l n Hne). reflexivity.
Qed.

Lemma strip_common_app (b r : list string) :
  Path.strip_common b (b ++ r) = ([], r).
Proof.
  induction b as [|x b IH]; simpl.
  - destruct r; reflexivity.
  - rewrite String.eqb_refl. exact IH.
Qed.

(** The path of a file under a directory, relative to the directory. *)
Lemma relative_absolute (b r : list string) :
  b <> [] -> names b -> names r ->
  Path.relative (absolute b) (absolute (b ++ r)) = Js.join "/" r.
Proof.
  intros Hne Hb Hr. unfold Path.relative.
  rewrite (resolved_absolute b Hne Hb).
  rewrite resolved_absolute;
    [|destruct b; [contradiction|discriminate]|apply Forall_app; auto].
  rewrite strip_common_app. reflexivity.
Qed.

(** *** Extensions *)

Lemma last_dot_suffix (s : string) :
  forall e b, Path.last_dot s = Some (e, b) -> exists pre, s = pre ++ e.
Proof.
  induction s as [|c s IH]; intros e b H; simpl in H; [discriminate|].
  destruct (Path.last_dot s) as [[e' b']|].
  - injection H as <- _. destruct (IH e' b' eq_refl) as [pre ->].
    exists (String c pre). reflexivity.
  - destruct (Ascii.eqb c Js.dot_char); [|discriminate].
    injection H as <- _. exists EmptyString. reflexivity.
Qed.

Lemma basename_name (n : string) : entry_name n = true -> Path.basename n = n.
Proof.
  intros H. destruct (entry_name_inv n H) as [He [Hs _]].
  unfold Path.basename, Path.segments. rewrite (split_no_slash n Hs).
  simpl. rewrite He. reflexivity.
Qed.

Lemma extname_suffix (n : string) :
  entry_name n = true ->
  Path.extname n = EmptyString \/ exists pre, n = pre ++ Path.extname n.
Proof.
  intros H. unfold Path.extname. rewrite (basename_name n H).
  destruct (String.eqb n ".."); [left; reflexivity|].
  destruct (Path.last_dot n) as [[e b]|] eqn:Hd; [|left; reflexivity].
  destruct b; [|left; reflexivity].
  right. eapply last_dot_suffix. exact Hd.
Qed.

(** A file whose name has a source extension has a source path. *)
Lemma source_path_name (a n : string) :
  entry_name n = true ->
  Local.has Local.extensions (Path.extname n) = true ->
  source_path (a ++ n) = true.
Proof.
  intros Hn Hx. unfold source_path.
  destruct (extname_suffix n Hn) as [He|[pre Hpre]].
  - rewrite He in Hx. discriminate.
  - apply existsb_exists. exists (Path.extname n). split.
    + unfold Local.has in Hx. apply existsb_exists in Hx.
      destruct Hx as [x [Hin Hx]]. apply String.eqb_eq in Hx. subst x. exact Hin.
    + rewrite Hpre at 1. rewrite <- sapp_assoc. apply endsWith_app.
Qed.

(* ------------------------------------------------------------------ *)
(** ** The enumeration of the local server *)

(** Induction over a tree, with the property at hand for every entry of
    a directory. *)
Lemma node_induction (P : Fs.node -> Prop) :
  (forall c, P (Fs.File c)) ->
  (forall es, Forall (fun e => P (snd e)) es -> P (Fs.Dir es)) ->
  forall n, P n.
Proof.
  intros HFile HDir. fix IH 1. intros [c|es].
  - apply HFile.
  - apply HDir. induction es as [|[entry child] rest IHrest].
    + constructor.
    + constructor; [apply IH|exact IHrest].
Qed.

Lemma collect_dir_cons d base entry child rest :
  Local.collect_dir d base (Fs.Dir ((entry, child) :: rest))
  = ((if Local.has Local.IGNORE entry then []
      else match child with
           | Fs.Dir _ => Local.collect_dir (Path.join [d; entry]) base child
           | Fs.File _ =>
               if Local.has Local.extensions (Path.extname entry)
               then [Path.relative base (Path.join [d; entry])]
               else []
           end) ++ Local.collect_dir d base (Fs.Dir rest))%list.
Proof. reflexivity. Qed.

Lemma well_named_cons entry child rest :
  well_named (Fs.Dir ((entry, child) :: rest))
  = entry_name entry && well_named child && well_named (Fs.Dir rest).
Proof. reflexivity. Qed.

Lemma free_of_ignored_join (l : list string) :
  l <> [] -> names l -> Forall kept l -> free_of_ignored (Js.join "/" l) = true.
Proof.
  intros Hne Hn Hk. unfold free_of_ignored. rewrite (segments_join l Hne Hn).
  apply forallb_forall. intros c Hc.
  apply (proj1 (Forall_forall _ _) Hk) in Hc. unfold kept, Local.has in Hc.
  apply negb_true_iff. exact Hc.
Qed.

Lemma join_snoc_suffix (l : list string) (n : string) :
  exists a, Js.join "/" (l ++ [n]) = a ++ n.
Proof.
  destruct l as [|x l].
  - exists EmptyString. reflexivity.
  - exists (Js.join "/" (x :: l) ++ "/").
    rewrite join_app by discriminate. simpl Js.join at 2.
    rewrite sapp_assoc. reflexivity.
Qed.

(** Every path that the enumeration of a directory yields is a source
    path without ignored components. *)
Lemma collect_dir_listed_well (base : list string) :
  base <> [] -> names base ->
  forall n,
    well_named n = true ->
    forall rel,
      names rel -> Forall kept rel ->
      Forall listed_well
             (Local.collect_dir (absolute (base ++ rel)) (absolute base) n).
Proof.
  intros Hne Hb n. induction n as [c|es IHes] using node_induction.
  - intros _ rel _ _. constructor.
  - induction es as [|[entry child] rest IHrest]; intros Hw rel Hrel Hkept.
    + constructor.
    + rewrite collect_dir_cons. rewrite well_named_cons in Hw.
      apply andb_true_iff in Hw. destruct Hw as [Hw Hwrest].
      apply andb_true_iff in Hw. destruct Hw as [Hentry Hchild].
      inversion IHes as [|? ? IHchild IHtail]; subst. simpl in IHchild.
      apply Forall_app. split; [|apply IHrest; assumption].
      destruct (Local.has Local.IGNORE entry) eqn:Hig; [constructor|].
      assert (Hne' : (base ++ rel)%list <> []) by (destruct base; [contradiction|discriminate]).
      assert (Hbr : names (base ++ rel)) by (apply Forall_app; auto).
      rewrite (join_absolute (base ++ rel) entry Hne' Hbr Hentry), <- app_assoc.
      assert (Hrel' : names (rel ++ [entry]))
        by (apply Forall_app; split; [exact Hrel|repeat constructor; exact Hentry]).
      assert (Hkept' : Forall kept (rel ++ [entry]))
        by (apply Forall_app; split; [exact Hkept|repeat constructor; exact Hig]).
      destruct child as [content|sub].
      * destruct (Local.has Local.extensions (Path.extname entry)) eqn:Hx; [|constructor].
        constructor; [|constructor].
        rewrite (relative_absolute base (rel ++ [entry]) Hne Hb Hrel').
        split.
        -- destruct (join_snoc_suffix rel entry) as [a ->].
           apply source_path_name; assumption.
        -- apply free_of_ignored_join; [destruct rel; discriminate|assumption|assumption].
      * apply IHchild; assumption.
Qed.

Lemma assoc_well_named (s : string) (es : list (string * Fs.node)) (c : Fs.node) :
  well_named (Fs.Dir es) = true -> Fs.assoc s es = Some c -> well_named c = true.
Proof.
  induction es as [|[entry child] rest IH]; intros Hw Ha; simpl in Ha; [discriminate|].
  rewrite well_named_cons in Hw.
  apply andb_true_iff in Hw. destruct Hw as [Hw Hwrest].
  apply andb_true_iff in Hw. destruct Hw as [_ Hchild].
  destruct (String.eqb entry s).
  - injection Ha as <-. exact Hchild.
  - apply IH; assumption.
Qed.

Lemma walk_well_named (segs : list string) :
  forall n m, well_named n = true -> Fs.walk n segs = Some m -> well_named m = true.
Proof.
  induction segs as [|s segs IH]; intros n m Hw H; simpl in H.
  - injection H as <-. exact Hw.
  - destruct n as [c|es]; [discriminate|].
    destruct (Fs.assoc s es) as [child|] eqn:Ha; [|discriminate].
    apply (IH child m); [|exact H]. eapply assoc_well_named; eauto.
Qed.

(** The directories of the registry are in normal form when the root
    is. *)
Lemma package_dir_absolute (root : string) (p : Local.PackageInfo) :
  normal_absolute root = true ->
  In p (Local.PACKAGES root) ->
  exists l, l <> [] /\ names l /\ Local.dir p = absolute l.
Proof.
  intros Hroot Hin. destruct (normal_absolute_inv root Hroot) as [b [Hne [Hb ->]]].
  assert (Hsub : forall n, entry_name n = true ->
                           exists l, l <> [] /\ names l
                                     /\ Path.join [absolute b; n] = absolute l).
  { intros n Hn. exists (b ++ [n])%list. split; [destruct b; discriminate|]. split.
    - apply Forall_app. split; [exact Hb|repeat constructor; exact Hn].
    - apply join_absolute; assumption. }
  simpl in Hin. destruct Hin as [<-|[<-|[<-|[<-|[]]]]]; cbn [Local.dir].
  - exists b. auto.
  - apply Hsub. reflexivity.
  - apply Hsub. reflexivity.
  - apply Hsub. reflexivity.
Qed.

Lemma collectSourceFiles_listed_well (fs : Fs.node) (l : list string) (files : list string) :
  l <> [] -> names l -> well_named fs = true ->
  Local.collectSourceFiles fs (absolute l) = Some files ->
  Forall listed_well files.
Proof.
  intros Hne Hl Hw H. unfold Local.collectSourceFiles in H.
  destruct (Fs.lookup fs (absolute l)) as [[c|es]|] eqn:Hlook.
  - discriminate.
  - injection H as <-.
    pose proof (collect_dir_listed_well l Hne Hl (Fs.Dir es)) as Hc.
    specialize (Hc (walk_well_named _ _ _ Hw Hlook) [] (Forall_nil _) (Forall_nil _)).
    rewrite app_nil_r in Hc. exact Hc.
  - injection H as <-. constructor.
Qed.

(* ------------------------------------------------------------------ *)
(** ** The listing of the remote server *)

Lemma source_extension_source_path (f : string) :
  Remote.source_extension f = source_path f.
Proof.
  unfold Remote.source_extension, source_path. simpl existsb.
  rewrite orb_false_r, !orb_assoc. reflexivity.
Qed.

Lemma ignored_name_not_source (a c : string) :
  In c Remote.IGNORE_PATTERNS -> source_path (a ++ c) = false.
Proof.
  intros Hc. unfold source_path. simpl existsb.
  simpl in Hc. destruct Hc as [<-|[<-|[<-|[<-|[<-|[]]]]]];
    rewrite !endsWith_app_long by (simpl; lia); reflexivity.
Qed.

Lemma has_In (set : list string) (c : string) :
  existsb (String.eqb c) set = true -> In c set.
Proof.
  intros H. apply existsb_exists in H. destruct H as [x [Hin Hx]].
  apply String.eqb_eq in Hx. subst x. exact Hin.
Qed.

(** A path that passes the filter of the tree listing is a source path
    without ignored components. *)
Lemma keep_path_listed_well (p : Remote.PackageInfo) (f : string) :
  Remote.basePath p = EmptyString ->
  Remote.keep_path p f = true -> listed_well f.
Proof.
  intros Hbase Hk. unfold Remote.keep_path in Hk. rewrite Hbase in Hk.
  cbn [Js.is_empty negb andb] in Hk.
  destruct (existsb _ Remote.IGNORE_PATTERNS) eqn:Hig; [discriminate|].
  rewrite source_extension_source_path in Hk.
  split; [exact Hk|].
  unfold free_of_ignored. apply forallb_forall. intros c Hc.
  apply negb_true_iff.
  destruct (existsb (String.eqb c) _) eqn:Hcig; [exfalso|reflexivity].
  apply has_In in Hcig. fold Remote.IGNORE_PATTERNS in Hcig.
  pose proof (join_split Js.slash_char f) as Hj. fold (Path.segments f) in Hj.
  change (Js.chr Js.slash_char) with "/" in Hj.
  apply in_split in Hc. destruct Hc as [s1 [s2 Hs]]. rewrite Hs in Hj.
  destruct s2 as [|y s2].
  - destruct (join_snoc_suffix s1 c) as [a Ha]. rewrite Ha in Hj.
    rewrite <- Hj, (ignored_name_not_source a c Hcig) in Hk. discriminate.
  - assert (Hfalse : existsb (fun ignore => Js.includes f ("/" ++ ignore ++ "/")
                                            || Js.startsWith f (ignore ++ "/"))
                             Remote.IGNORE_PATTERNS = true).
    { apply existsb_exists. exists c. split; [exact Hcig|].
      destruct s1 as [|x s1].
      - simpl app in Hj. rewrite join_cons in Hj by discriminate.
        rewrite <- Hj, <- sapp_assoc, startsWith_refl_app. apply orb_true_r.
      - rewrite join_app in Hj by discriminate.
        rewrite (join_cons "/" c (y :: s2)) in Hj by discriminate.
        rewrite <- Hj.
        replace ("/" ++ c ++ "/" ++ Js.join "/" (y :: s2))
          with (("/" ++ c ++ "/") ++ Js.join "/" (y :: s2))
          by (rewrite !sapp_assoc; reflexivity).
        rewrite includes_app. reflexivity. }
    rewrite Hfalse in Hig. discriminate.
Qed.

Lemma remote_basePath_empty (p : Remote.PackageInfo) :
  In p Remote.PACKAGES -> Remote.basePath p = EmptyString.
Proof.
  intros H. simpl in H. destruct H as [<-|[<-|[<-|[<-|[]]]]]; reflexivity.
Qed.

Lemma list_files_listed_well (p : Remote.PackageInfo) (tree : list Net.tree_item) :
  Remote.basePath p = EmptyString ->
  Forall listed_well (Remote.list_files p tree).
Proof.
  intros Hbase. unfold Remote.list_files. rewrite Hbase. cbn [Js.is_empty negb].
  rewrite map_id. apply Forall_forall. intros f Hf.
  apply filter_In in Hf. destruct Hf as [_ Hk].
  apply (keep_path_listed_well p f Hbase Hk).
Qed.

(* ------------------------------------------------------------------ *)
(** ** The listing of source files *)

(** C7. The listing of [get_package_source] without a file path holds
    only paths that end in [.ts], [.tsx], [.js] or [.jsx] and that have
    none of [node_modules], [dist], [.git], [.github] and [.claude] as a
    component, on the local server (for a root in normal form and a
    tree of entry names) and on the remote server. *)
Theorem source_listing_filtered (root : string) (fs : Fs.node)
        (GITHUB_TOKEN : option string)
        (fetch_text : string -> Net.result (Net.response string))
        (fetch_tree : string -> Net.result (Net.response (list Net.tree_item)))
        (packageId : string) :
  (forall p files,
      normal_absolute root = true ->
      well_named fs = true ->
      Local.findPackage root packageId = Some p ->
      Local.collectSourceFiles fs (Local.dir p) = Some files ->
      Local.get_package_source root fs packageId None
      = Some (success (Local.listing p files))
      /\ Forall (fun f => source_path f = true /\ free_of_ignored f = true) files)
  /\ (forall p tree,
         Remote.findPackage packageId = Some p ->
         Remote.fetchGitHubAPI fetch_tree
           ("/repos/" ++ Remote.repo p ++ "/git/trees/" ++ Remote.branch p
            ++ "?recursive=1") = Net.Ok tree ->
         Remote.get_package_source GITHUB_TOKEN fetch_text fetch_tree packageId None
         = success (Remote.listing p (Remote.list_files p tree))
         /\ Forall (fun f => source_path f = true /\ free_of_ignored f = true)
                   (Remote.list_files p tree)).
Proof.
  split.
  - intros p files Hroot Hw Hf Hc. split.
    + unfold Local.get_package_source. rewrite Hf, Hc. reflexivity.
    + destruct (package_dir_absolute root p Hroot (local_findPackage_In root _ _ Hf))
        as [l [Hne [Hl Hd]]].
      rewrite Hd in Hc.
      apply (collectSourceFiles_listed_well fs l files Hne Hl Hw Hc).
  - intros p tree Hf Ht. split.
    + unfold Remote.get_package_source. rewrite Hf, Ht. reflexivity.
    + apply list_files_listed_well. apply remote_basePath_empty.
      apply (remote_findPackage_In _ _ Hf).
Qed.

Lemma source_listing_filtered_witness :
  Local.get_package_source Example.root Example.disk "react-form" None
  = Some (success (Local.listing Example.react_form ["types.ts"; "hooks/useForm.tsx"]))
  /\ Forall (fun f => source_path f = true /\ free_of_ignored f = true)
            ["types.ts"; "hooks/useForm.tsx"].
Proof.
  refine (proj1 (source_listing_filtered Example.root Example.disk None
                   Example.fetch_text Example.fetch_tree "react-form")
                Example.react_form ["types.ts"; "hooks/useForm.tsx"] _ _ _ _).
  - reflexivity.
  - reflexivity.
  - reflexivity.
  - reflexivity.
Defined.

(* ================================================================== *)
(** * Further properties *)

(* ------------------------------------------------------------------ *)
(** ** Lookup in the registry *)

Lemma startsWith_inv (s p : string) :
  Js.startsWith s p = true -> s = p ++ Js.drop (String.length p) s.
Proof.
  revert s. induction p as [|c p IH]; intros s H; simpl in *; [reflexivity|].
  destruct s as [|d s]; [discriminate|].
  apply andb_true_iff in H. destruct H as [Hc Hs].
  apply Ascii.eqb_eq in Hc. subst d. rewrite <- (IH s Hs). reflexivity.
Qed.

Lemma strip_namespace_cases (i : string) :
  Local.strip_namespace i = i
  \/ i = "@gaddario98/" ++ Local.strip_namespace i.
Proof.
  unfold Local.strip_namespace.
  destruct (Js.startsWith i "@gaddario98/") eqn:H; [right|left; reflexivity].
  apply (startsWith_inv i "@gaddario98/" H).
Qed.

(** [findPackage] finds an entry of the registry by its id or by its
    name, finds that very entry, and finds nothing else: the id with
    the namespace before it is the name. *)
Theorem findPackage_exact (root : string) (i : string) :
  (forall p, Local.findPackage root i = Some p <->
             In p (Local.PACKAGES root) /\ (i = Local.id p \/ i = Local.name p))
  /\ (forall p, Remote.findPackage i = Some p <->
                In p Remote.PACKAGES /\ (i = Remote.id p \/ i = Remote.name p)).
Proof.
  split; intros p; split.
  - intros H. pose proof (find_some _ _ H) as [Hin Hp]. split; [exact Hin|].
    apply orb_true_iff in Hp. destruct Hp as [Hp|Hp].
    + apply orb_true_iff in Hp. destruct Hp as [Hp|Hp];
        apply String.eqb_eq in Hp; auto.
    + apply String.eqb_eq in Hp.
      destruct (strip_namespace_cases i) as [Hs|Hs]; rewrite <- Hp in Hs.
      * left. symmetry. exact Hs.
      * right. rewrite Hs. simpl in Hin.
        destruct Hin as [<-|[<-|[<-|[<-|[]]]]]; reflexivity.
  - intros [Hin Hi]. simpl in Hin.
    destruct Hin as [<-|[<-|[<-|[<-|[]]]]]; destruct Hi as [->| ->]; reflexivity.
  - intros H. pose proof (find_some _ _ H) as [Hin Hp]. split; [exact Hin|].
    apply orb_true_iff in Hp. destruct Hp as [Hp|Hp].
    + apply orb_true_iff in Hp. destruct Hp as [Hp|Hp];
        apply String.eqb_eq in Hp; auto.
    + apply String.eqb_eq in Hp.
      destruct (strip_namespace_cases i) as [Hs|Hs]; rewrite <- Hp in Hs.
      * left. symmetry. exact Hs.
      * right. rewrite Hs. simpl in Hin.
        destruct Hin as [<-|[<-|[<-|[<-|[]]]]]; reflexivity.
  - intros [Hin Hi]. simpl in Hin.
    destruct Hin as [<-|[<-|[<-|[<-|[]]]]]; destruct Hi as [->| ->]; reflexivity.
Qed.

Lemma findPackage_exact_witness :
  Local.findPackage Example.root "@gaddario98/react-form" = Some Example.react_form.
Proof.
  refine (proj2 (proj1 (findPackage_exact Example.root "@gaddario98/react-form")
                       Example.react_form) _).
  split.
  - right. left. reflexivity.
  - right. reflexivity.
Defined.

(** The tag of a hit of the remote search is the id of the package
    whose repository the hit lies in; a repository of no package is
    tagged as the core package. *)
Theorem pkgIdMatch_registry (repoFullName : string) :
  (forall p, In p Remote.PACKAGES -> Remote.repo p = repoFullName ->
             Remote.pkgIdMatch repoFullName = Remote.id p)
  /\ ((forall p, In p Remote.PACKAGES -> Remote.repo p <> repoFullName) ->
      Remote.pkgIdMatch repoFullName = "react-core").
Proof.
  split.
  - intros p Hin <-. simpl in Hin.
    destruct Hin as [<-|[<-|[<-|[<-|[]]]]]; reflexivity.
  - intros H.
    assert (HF : Forall (fun p => Remote.repo p <> repoFullName) Remote.PACKAGES)
      by (apply Forall_forall; exact H).
    unfold Remote.PACKAGES in HF.
    repeat match goal with
           | HF : Forall _ (_ :: _) |- _ => inversion HF; clear HF; subst
           end.
    cbn [Remote.repo] in *. unfold Remote.pkgIdMatch.
    repeat match goal with
           | |- context [String.eqb ?a ?b] =>
               destruct (String.eqb_spec a b); [congruence|]
           end.
    reflexivity.
Qed.

Lemma pkgIdMatch_registry_witness :
  Remote.pkgIdMatch "gaddario98/react-base-pages" = "react-pages".
Proof.
  refine (proj1 (pkgIdMatch_registry "gaddario98/react-base-pages")
                (nth 3 Remote.PACKAGES (Remote.Build_PackageInfo
                   EmptyString EmptyString EmptyString EmptyString EmptyString
                   EmptyString EmptyString None EmptyString)) _ _).
  - right. right. right. left. reflexivity.
  - reflexivity.
Defined.



(* ------------------------------------------------------------------ *)
(** ** The enumeration and the tree *)

Lemma walk_cons (es : list (string * Fs.node)) (x : string) (cs : list string) :
  Fs.walk (Fs.Dir es) (x :: cs)
  = match Fs.assoc x es with
    | Some child => Fs.walk child cs
    | None => None
    end.
Proof. reflexivity. Qed.

Lemma walk_file (c : option string) (comps : list string) (m : Fs.node) :
  Fs.walk (Fs.File c) comps = Some m -> comps = [].
Proof. destruct comps; [reflexivity|discriminate]. Qed.


Lemma distinct_names_cons entry child rest :
  distinct_names (Fs.Dir ((entry, child) :: rest))
  = negb (existsb (fun e => String.eqb (fst e) entry) rest)
    && distinct_names child && distinct_names (Fs.Dir rest).
Proof. reflexivity. Qed.

Lemma assoc_named (x : string) (es : list (string * Fs.node)) (c : Fs.node) :
  Fs.assoc x es = Some c -> existsb (fun e => String.eqb (fst e) x) es = true.
Proof.
  induction es as [|[entry child] rest IH]; intros H; simpl in *; [discriminate|].
  destruct (String.eqb entry x); [reflexivity|]. apply IH. exact H.
Qed.



Lemma last_cons_cons (x y : string) (l : list string) :
  last (x :: y :: l) EmptyString = last (y :: l) EmptyString.
Proof. reflexivity. Qed.

Lemma source_file_at_file (c : option string) (comps : list string) :
  ~ source_file_at (Fs.File c) comps.
Proof.
  intros [Hne [_ [_ [c' H]]]]. apply walk_file in H. contradiction.
Qed.

(** What the enumeration of a directory finds, entry by entry. *)
Lemma source_file_at_cons entry child rest comps :
  distinct_names (Fs.Dir ((entry, child) :: rest)) = true ->
  (source_file_at (Fs.Dir ((entry, child) :: rest)) comps <->
   (kept entry /\
    ((exists c, child = Fs.File c /\ comps = [entry]
                /\ Local.has Local.extensions (Path.extname entry) = true)
     \/ (exists cs, comps = entry :: cs /\ source_file_at child cs)))
   \/ source_file_at (Fs.Dir rest) comps).
Proof.
  intros Hd. rewrite distinct_names_cons in Hd.
  apply andb_true_iff in Hd. destruct Hd as [Hd _].
  apply andb_true_iff in Hd. destruct Hd as [Hfresh _].
  apply negb_true_iff in Hfresh.
  split.
  - intros [Hne [Hk [Hx [c Hw]]]].
    destruct comps as [|x cs]; [contradiction|].
    rewrite walk_cons in Hw. simpl Fs.assoc in Hw.
    inversion Hk as [|? ? Hkx Hkcs]; subst.
    destruct (String.eqb_spec entry x) as [<-|Hneq].
    + left. split; [exact Hkx|].
      destruct cs as [|y cs'].
      * left. simpl in Hw. injection Hw as ->. exists c. auto.
      * right. exists (y :: cs'). split; [reflexivity|].
        rewrite last_cons_cons in Hx.
        split; [discriminate|]. split; [exact Hkcs|]. split; [exact Hx|eauto].
    + right. split; [discriminate|]. split; [exact Hk|]. split; [exact Hx|].
      exists c. rewrite walk_cons. exact Hw.
  - intros [[Hk [[c [-> [-> Hx]]]|[cs [-> [Hne [Hkcs [Hx [c Hw]]]]]]]]|H].
    + split; [discriminate|]. split; [repeat constructor; exact Hk|].
      split; [exact Hx|]. exists c. rewrite walk_cons. simpl.
      rewrite String.eqb_refl. reflexivity.
    + split; [discriminate|]. split; [constructor; assumption|].
      split.
      * destruct cs as [|y cs']; [contradiction|]. rewrite last_cons_cons. exact Hx.
      * exists c. rewrite walk_cons. simpl. rewrite String.eqb_refl. exact Hw.
    + destruct H as [Hne [Hk [Hx [c Hw]]]].
      split; [exact Hne|]. split; [exact Hk|]. split; [exact Hx|].
      exists c. destruct comps as [|x cs]; [contradiction|].
      rewrite walk_cons in *. simpl Fs.assoc.
      destruct (Fs.assoc x rest) as [child'|] eqn:Ha; [|discriminate].
      destruct (String.eqb_spec entry x) as [<-|_].
      * apply assoc_named in Ha. rewrite Ha in Hfresh. discriminate.
      * exact Hw.
Qed.

(** The enumeration of a directory yields exactly the paths of the
    source files below it. *)
Lemma collect_dir_exact (base : list string) :
  base <> [] -> names base ->
  forall n,
    well_named n = true -> distinct_names n = true ->
    forall rel f,
      names rel ->
      (In f (Local.collect_dir (absolute (base ++ rel)) (absolute base) n)
       <-> exists comps, f = Js.join "/" (rel ++ comps) /\ source_file_at n comps).
Proof.
  intros Hne Hb n. induction n as [c|es IHes] using node_induction.
  - intros _ _ rel f _. simpl. split; [contradiction|].
    intros [comps [_ H]]. exact (source_file_at_file c comps H).
  - induction es as [|[entry child] rest IHrest]; intros Hw Hd rel f Hrel.
    + simpl. split; [contradiction|].
      intros [comps [_ [Hn [_ [_ [c H]]]]]].
      destruct comps; [contradiction|discriminate].
    + rewrite collect_dir_cons, in_app_iff.
      pose proof Hd as Hd0.
      rewrite well_named_cons in Hw. rewrite distinct_names_cons in Hd.
      apply andb_true_iff in Hw. destruct Hw as [Hw Hwrest].
      apply andb_true_iff in Hw. destruct Hw as [Hentry Hchild].
      apply andb_true_iff in Hd. destruct Hd as [Hd Hdrest].
      apply andb_true_iff in Hd. destruct Hd as [_ Hdchild].
      inversion IHes as [|? ? IHchild IHtail]; subst. simpl in IHchild.
      rewrite (IHrest IHtail Hwrest Hdrest rel f Hrel).
      assert (Hne' : (base ++ rel)%list <> [])
        by (destruct base; [contradiction|discriminate]).
      assert (Hbr : names (base ++ rel)) by (apply Forall_app; auto).
      assert (Hrel' : names (rel ++ [entry]))
        by (apply Forall_app; split; [exact Hrel|repeat constructor; exact Hentry]).
      rewrite (join_absolute (base ++ rel) entry Hne' Hbr Hentry), <- app_assoc.
      split.
      * intros [Hhead|[comps [Hf Hs]]].
        -- destruct (Local.has Local.IGNORE entry) eqn:Hig; [contradiction|].
           destruct child as [content|sub].
           ++ destruct (Local.has Local.extensions (Path.extname entry)) eqn:Hx;
                [|contradiction].
              destruct Hhead as [<-|[]].
              exists [entry]. split.
              ** apply (relative_absolute base (rel ++ [entry]) Hne Hb Hrel').
              ** apply (source_file_at_cons entry _ rest [entry] Hd0).
                 left. split; [exact Hig|]. left. exists content. auto.
           ++ apply (IHchild Hchild Hdchild (rel ++ [entry])%list f Hrel') in Hhead.
              destruct Hhead as [cs [Hf Hs]].
              exists (entry :: cs). split.
              ** rewrite Hf, <- app_assoc. reflexivity.
              ** apply (source_file_at_cons entry _ rest _ Hd0).
                 left. split; [exact Hig|]. right. exists cs. auto.
        -- exists comps. split; [exact Hf|].
           apply (source_file_at_cons entry child rest comps Hd0). right. exact Hs.
      * intros [comps [Hf Hs]].
        apply (source_file_at_cons entry child rest comps Hd0) in Hs.
        destruct Hs as [[Hk [[c [-> [-> Hx]]]|[cs [-> Hs]]]]|Hs].
        -- left. unfold kept in Hk. rewrite Hk, Hx. left.
           rewrite Hf. apply (relative_absolute base (rel ++ [entry]) Hne Hb Hrel').
        -- left. unfold kept in Hk. rewrite Hk.
           destruct child as [content|sub];
             [exfalso; exact (source_file_at_file content cs Hs)|].
           apply (IHchild Hchild Hdchild (rel ++ [entry])%list f Hrel').
           exists cs. split; [|exact Hs]. rewrite Hf, <- app_assoc. reflexivity.
        -- right. exists comps. auto.
Qed.


Lemma assoc_distinct_names (s : string) (es : list (string * Fs.node)) (c : Fs.node) :
  distinct_names (Fs.Dir es) = true -> Fs.assoc s es = Some c ->
  distinct_names c = true.
Proof.
  induction es as [|[entry child] rest IH]; intros Hd Ha; simpl in Ha; [discriminate|].
  rewrite distinct_names_cons in Hd.
  apply andb_true_iff in Hd. destruct Hd as [Hd Hrest].
  apply andb_true_iff in Hd. destruct Hd as [_ Hchild].
  destruct (String.eqb entry s).
  - injection Ha as <-. exact Hchild.
  - apply IH; assumption.
Qed.

Lemma walk_distinct_names (segs : list string) :
  forall n m, distinct_names n = true -> Fs.walk n segs = Some m ->
              distinct_names m = true.
Proof.
  induction segs as [|s segs IH]; intros n m Hd H; simpl in H.
  - injection H as <-. exact Hd.
  - destruct n as [c|es]; [discriminate|].
    destruct (Fs.assoc s es) as [child|] eqn:Ha; [|discriminate].
    apply (IH child m); [|exact H]. eapply assoc_distinct_names; eauto.
Qed.

Lemma lookup_absolute (fs : Fs.node) (l : list string) :
  l <> [] -> names l -> Fs.lookup fs (absolute l) = Fs.walk fs l.
Proof. intros Hne Hl. unfold Fs.lookup. rewrite resolved_absolute; auto. Qed.

Lemma absolute_last_suffix (l : list string) (n : string) :
  exists a, absolute (l ++ [n]) = a ++ n.
Proof.
  destruct (join_snoc_suffix l n) as [a Ha]. exists ("/" ++ a).
  unfold absolute. rewrite Ha. reflexivity.
Qed.

(** An absolute path in normal form is its own normal form. *)
Lemma normalize_absolute (l : list string) :
  l <> [] -> names l -> Path.normalize (absolute l) = absolute l.
Proof.
  intros Hne Hl. unfold Path.normalize.
  change (Js.is_empty (absolute l)) with false. cbv iota.
  change (Path.isAbsolute (absolute l)) with true. cbv zeta. cbn [negb].
  rewrite (segments_absolute l Hne Hl). cbn [Path.norm_segs Js.is_empty orb].
  rewrite (norm_segs_names false l Hl []). cbn [rev app].
  rewrite (join_names_not_empty l Hne Hl).
  destruct (exists_last Hne) as [l' [n ->]].
  assert (Hn : entry_name n = true).
  { apply Forall_app in Hl. destruct Hl as [_ Hl]. inversion Hl; assumption. }
  destruct (absolute_last_suffix l' n) as [a Ha].
  rewrite Ha, (name_not_trailing a n Hn), <- Ha. reflexivity.
Qed.



(* ------------------------------------------------------------------ *)
(** ** The listing and the reading of source files *)

Lemma collectSourceFiles_exact (root : string) (fs : Fs.node)
        (packageId : string) (p : Local.PackageInfo) (files : list string) :
  normal_absolute root = true ->
  well_named fs = true ->
  distinct_names fs = true ->
  Local.findPackage root packageId = Some p ->
  Local.collectSourceFiles fs (Local.dir p) = Some files ->
  forall f,
    In f files <->
    exists n comps,
      Fs.lookup fs (Local.dir p) = Some n
      /\ f = Js.join "/" comps
      /\ source_file_at n comps.
Proof.
  intros Hroot Hw Hd Hf Hc f.
  destruct (package_dir_absolute root p Hroot (local_findPackage_In root _ _ Hf))
    as [l [Hne [Hl Hdir]]].
  rewrite Hdir in *. unfold Local.collectSourceFiles in Hc.
  destruct (Fs.lookup fs (absolute l)) as [[c|es]|] eqn:Hlook.
  - discriminate.
  - injection Hc as <-.
    rewrite (lookup_absolute fs l Hne Hl) in Hlook.
    pose proof (collect_dir_exact l Hne Hl (Fs.Dir es)
                  (walk_well_named _ _ _ Hw Hlook)
                  (walk_distinct_names _ _ _ Hd Hlook) [] f (Forall_nil _)) as H.
    rewrite app_nil_r in H. simpl app in H. rewrite H. split.
    + intros [comps [Hj Hs]]. exists (Fs.Dir es), comps. auto.
    + intros [n [comps [Hn [Hj Hs]]]]. injection Hn as <-. eauto.
  - injection Hc as <-. split; [contradiction|].
    intros [n [comps [Hn _]]]. discriminate.
Qed.

(** The listing of a package holds exactly the paths of the source
    files below the directory of the package: the files whose name has
    one of the four extensions ([extname], so a file named [.ts] alone
    is none) and whose path from the directory has no skipped name. *)
Theorem source_listing_exact (root : string) (fs : Fs.node)
        (packageId : string) (p : Local.PackageInfo) (files : list string) :
  normal_absolute root = true ->
  well_named fs = true ->
  distinct_names fs = true ->
  Local.findPackage root packageId = Some p ->
  Local.collectSourceFiles fs (Local.dir p) = Some files ->
  forall f,
    In f files <->
    exists n comps,
      Fs.lookup fs (Local.dir p) = Some n
      /\ f = Js.join "/" comps
      /\ source_file_at n comps.
Proof. apply collectSourceFiles_exact. Qed.

Lemma source_listing_exact_witness :
  In "hooks/useForm.tsx" ["types.ts"; "hooks/useForm.tsx"].
Proof.
  refine (proj2 (source_listing_exact Example.root Example.disk "react-form"
                   Example.react_form ["types.ts"; "hooks/useForm.tsx"]
                   _ _ _ _ _ "hooks/useForm.tsx") _).
  - reflexivity.
  - reflexivity.
  - reflexivity.
  - reflexivity.
  - reflexivity.
  - eexists. exists ["hooks"; "useForm.tsx"].
    split; [vm_compute; reflexivity|]. split; [reflexivity|].
    split; [discriminate|]. split; [repeat constructor|].
    split; [reflexivity|]. eexists. vm_compute. reflexivity.
Defined.




(* ------------------------------------------------------------------ *)
(** ** The filter of the remote listing *)

Lemma includes_inv (s p : string) :
  Js.includes s p = true -> exists a b, s = a ++ p ++ b.
Proof.
  induction s as [|c s IH]; intros H.
  - simpl in H. rewrite orb_false_r in H. apply startsWith_inv in H.
    exists EmptyString. eexists. exact H.
  - simpl in H. apply orb_true_iff in H. destruct H as [H|H].
    + apply startsWith_inv in H. exists EmptyString. eexists. exact H.
    + destruct (IH H) as [a [b ->]]. exists (String c a), b. reflexivity.
Qed.

Lemma split_app_sep (sep : ascii) (a b : string) :
  Js.split sep (a ++ String sep b) = (Js.split sep a ++ Js.split sep b)%list.
Proof.
  induction a as [|c a IH]; simpl.
  - rewrite Ascii.eqb_refl. reflexivity.
  - destruct (Ascii.eqb c sep); rewrite IH; [reflexivity|].
    pose proof (split_not_nil sep a) as Hne.
    destruct (Js.split sep a); [contradiction|reflexivity].
Qed.

(** A name between two slashes, or before the first one, is a component. *)
Lemma component_between (a ig b : string) :
  no_slash ig -> In ig (Path.segments (a ++ "/" ++ ig ++ "/" ++ b)).
Proof.
  intros H. unfold Path.segments.
  change (a ++ "/" ++ ig ++ "/" ++ b) with (a ++ String Js.slash_char (ig ++ "/" ++ b)).
  rewrite split_app_sep. apply in_or_app. right.
  rewrite (split_app_no_slash ig _ H). left. simpl. apply sapp_empty_r.
Qed.

Lemma component_first (ig b : string) :
  no_slash ig -> In ig (Path.segments (ig ++ "/" ++ b)).
Proof.
  intros H. unfold Path.segments.
  rewrite (split_app_no_slash ig _ H). left. simpl. apply sapp_empty_r.
Qed.

Lemma ignore_patterns_no_slash : Forall no_slash Remote.IGNORE_PATTERNS.
Proof. repeat constructor. Qed.

(** For a package at the top of its repository, the filter of the tree
    listing keeps exactly the source paths without ignored components. *)
Lemma keep_path_exact (p : Remote.PackageInfo) (f : string) :
  Remote.basePath p = EmptyString ->
  Remote.keep_path p f = source_path f && free_of_ignored f.
Proof.
  intros Hbase.
  destruct (Remote.keep_path p f) eqn:Hk.
  - destruct (keep_path_listed_well p f Hbase Hk) as [-> ->]. reflexivity.
  - destruct (source_path f) eqn:Hs; [|reflexivity].
    destruct (free_of_ignored f) eqn:Hfree; [|reflexivity].
    exfalso. unfold Remote.keep_path in Hk. rewrite Hbase in Hk.
    cbn [Js.is_empty negb andb] in Hk.
    rewrite source_extension_source_path, Hs in Hk.
    destruct (existsb _ Remote.IGNORE_PATTERNS) eqn:Hig; [|discriminate].
    apply existsb_exists in Hig. destruct Hig as [ig [Hin Hig]].
    pose proof (proj1 (Forall_forall _ _) ignore_patterns_no_slash ig Hin) as Hns.
    assert (Hcomp : In ig (Path.segments f)).
    { apply orb_true_iff in Hig. destruct Hig as [Hig|Hig].
      - apply includes_inv in Hig. destruct Hig as [a [b ->]].
        rewrite !sapp_assoc. apply component_between. exact Hns.
      - apply startsWith_inv in Hig. rewrite Hig, sapp_assoc.
        apply component_first. exact Hns. }
    unfold free_of_ignored in Hfree.
    pose proof (proj1 (forallb_forall _ _) Hfree ig Hcomp) as Hneg.
    apply negb_true_iff in Hneg.
    assert (Htrue : existsb (String.eqb ig) Remote.IGNORE_PATTERNS = true).
    { apply existsb_exists. exists ig. split; [exact Hin|apply String.eqb_refl]. }
    unfold Remote.IGNORE_PATTERNS in Htrue. rewrite Htrue in Hneg. discriminate.
Qed.

(** The remote listing is, in the order of the tree, the paths of the
    blobs that are source paths without ignored components: no
    directory of the tree is listed, and no such blob is left out. *)
Theorem remote_listing_exact (packageId : string) (p : Remote.PackageInfo)
        (tree : list Net.tree_item) :
  Remote.findPackage packageId = Some p ->
  Remote.list_files p tree
  = filter (fun f => source_path f && free_of_ignored f)
           (map Net.path (filter (fun item => String.eqb (Net.type item) "blob") tree)).
Proof.
  intros Hf.
  pose proof (remote_basePath_empty p (remote_findPackage_In _ _ Hf)) as Hbase.
  unfold Remote.list_files. rewrite Hbase. cbn [Js.is_empty negb].
  rewrite map_id. apply filter_ext. intros f. apply keep_path_exact. exact Hbase.
Qed.

Lemma remote_listing_exact_witness :
  Remote.list_files (hd (Remote.Build_PackageInfo EmptyString EmptyString EmptyString
                           EmptyString EmptyString EmptyString EmptyString None
                           EmptyString) Remote.PACKAGES) Example.tree
  = ["src/index.ts"; "hooks/useForm.tsx"].
Proof.
  exact (remote_listing_exact "react-core" _ Example.tree eq_refl).
Defined.


(* ------------------------------------------------------------------ *)
(** ** More of the search *)

Section SearchMore.
Context {E : RegExp.Engine}.
Import Local SearchSpec.

Lemma In_truncate {A : Type} (m : Z) (x : A) (l : list A) :
  In x (truncate m l) -> In x l.
Proof.
  unfold truncate. intros H.
  rewrite <- (firstn_skipn (Z.to_nat m) l). apply in_or_app. left. exact H.
Qed.

Lemma file_matches_inv fs r p f x :
  In x (file_matches fs r p f) ->
  exists txt i l,
    Fs.readFileSync fs (Path.join [dir p; f]) = Some txt
    /\ nth_error (Js.split Js.nl_char txt) i = Some l
    /\ line_matches r l = true
    /\ x = {| file := f; line := i + 1; content := Js.trim l |}.
Proof.
  unfold file_matches.
  destruct (Fs.readFileSync fs (Path.join [dir p; f])) as [txt|]; [|contradiction].
  intros H. apply matching_lines_inv in H. destruct H as [i [l [Hn [Hm ->]]]].
  exists txt, i, l. auto.
Qed.

Lemma searchInPackage_sound fs p pattern m rs evs :
  searchInPackage fs p pattern m = Some (rs, evs) ->
  exists files r,
    collectSourceFiles fs (dir p) = Some files
    /\ search_regex pattern = Some r
    /\ rs = truncate m (package_matches fs r p files).
Proof.
  intros H.
  destruct (collectSourceFiles fs (dir p)) as [files|] eqn:Hc;
    [|unfold searchInPackage in H; rewrite Hc in H; discriminate].
  destruct (search_regex pattern) as [r|] eqn:Hr;
    [|unfold searchInPackage in H; rewrite Hc, Hr in H; discriminate].
  destruct (searchInPackage_stateless fs p pattern m files r Hc Hr) as [evs' Hs].
  rewrite Hs in H. injection H as <- _. exists files, r. auto.
Qed.

Lemma search_packages_sound fs pattern m pkgs :
  forall allResults trace res tr,
    search_packages fs pattern m pkgs allResults trace = Some (res, tr) ->
    forall h, In h res ->
              In h allResults \/ exists p, In p pkgs /\ real_hit fs pattern p h.
Proof.
  induction pkgs as [|p rest IH]; intros allResults trace res tr H h Hh; simpl in H.
  - injection H as <- _. left. exact Hh.
  - destruct (searchInPackage fs p pattern (m - Z.of_nat (length allResults)))
      as [[rs evs]|] eqn:Hs; [|discriminate].
    assert (Hnew : forall h, In h (allResults ++ map (tag p) rs) ->
                             In h allResults \/ real_hit fs pattern p h).
    { intros h' Hin. apply in_app_or in Hin. destruct Hin as [Hin|Hin]; [left; exact Hin|].
      right. apply in_map_iff in Hin. destruct Hin as [x [<- Hx]].
      destruct (searchInPackage_sound _ _ _ _ _ _ Hs) as [files [r [Hc [Hr ->]]]].
      apply In_truncate in Hx. unfold package_matches in Hx.
      apply in_flat_map in Hx. destruct Hx as [f [Hf Hx]].
      apply file_matches_inv in Hx. destruct Hx as [txt [i [l [Hread [Hn [Hm ->]]]]]].
      split; [reflexivity|]. exists files, r, f, txt, i, l. repeat split; assumption. }
    destruct (m <=? _)%Z.
    + injection H as <- _. destruct (Hnew h Hh) as [Hin|Hreal]; [left; exact Hin|].
      right. exists p. split; [left; reflexivity|exact Hreal].
    + destruct (IH _ _ _ _ H h Hh) as [Hin|[q [Hq Hreal]]].
      * destruct (Hnew h Hin) as [Hin'|Hreal]; [left; exact Hin'|].
        right. exists p. split; [left; reflexivity|exact Hreal].
      * right. exists q. split; [right; exact Hq|exact Hreal].
Qed.

Lemma scan_lines_reads r f m lines :
  forall i st, reads (scan_lines r f m i lines st) = reads st.
Proof.
  induction lines as [|l rest IH]; intros i st; simpl; [reflexivity|].
  destruct (reached m (results st)); [reflexivity|].
  destruct (RegExp.test r (lastIndex st) l) as [found li].
  destruct found; rewrite IH; reflexivity.
Qed.

(** The loop over the files reads a first part of the listing, in
    order, each file once; all of it when the cap is not reached. *)
Lemma scan_files_reads fs r p m files :
  forall st,
    (exists k, reads (scan_files fs r p m files st)
               = (reads st ++ read_events p (firstn k files))%list)
    /\ (reached m (results (scan_files fs r p m files st)) = false ->
        reads (scan_files fs r p m files st) = (reads st ++ read_events p files)%list).
Proof.
  induction files as [|f rest IH]; intros st; simpl scan_files.
  - split; [exists 0%nat|intros _]; simpl; rewrite app_nil_r; reflexivity.
  - destruct (reached m (results st)) eqn:Hr.
    + split; [exists 0%nat; simpl; rewrite app_nil_r; reflexivity|].
      intros H. rewrite Hr in H. discriminate.
    + assert (Hstep : forall st1,
                 reads st1 = (reads st ++ [ReadFile (Path.join [dir p; f])])%list ->
                 (exists k, reads (scan_files fs r p m rest st1)
                            = (reads st ++ read_events p (firstn k (f :: rest)))%list)
                 /\ (reached m (results (scan_files fs r p m rest st1)) = false ->
                     reads (scan_files fs r p m rest st1)
                     = (reads st ++ read_events p (f :: rest))%list)).
      { intros st1 H1. destruct (IH st1) as [[k Hk] Hall]. split.
        - exists (S k). rewrite Hk, H1, <- app_assoc. reflexivity.
        - intros H. rewrite (Hall H), H1, <- app_assoc. reflexivity. }
      destruct (Fs.readFileSync fs (Path.join [dir p; f])).
      * apply Hstep. rewrite scan_lines_reads. reflexivity.
      * apply Hstep. reflexivity.
Qed.

(** Every hit of a search names a package of the scope of the search
    and is a line of a readable file of the listing of that package,
    matched by the expression, with its number counted from one. *)
Theorem search_hits_are_real (root : string) (fs : Fs.node)
        (packageId pattern : string) (maxResults : Z)
        (res : list Hit) (tr : list event) (h : Hit) :
  search_all root fs packageId pattern maxResults = Some (res, tr) ->
  In h res ->
  exists p files r f txt i l,
    In p (packagesToSearch root packageId)
    /\ pkg h = id p
    /\ collectSourceFiles fs (dir p) = Some files
    /\ search_regex pattern = Some r
    /\ In f files
    /\ Fs.readFileSync fs (Path.join [dir p; f]) = Some txt
    /\ nth_error (Js.split Js.nl_char txt) i = Some l
    /\ line_matches r l = true
    /\ hit h = {| file := f; line := i + 1; content := Js.trim l |}.
Proof.
  intros H Hh. unfold search_all in H.
  destruct (search_packages_sound fs pattern maxResults _ _ _ _ _ H h Hh)
    as [[]|[p [Hp [Hid [files [r [f [txt [i [l Hreal]]]]]]]]]].
  exists p, files, r, f, txt, i, l. tauto.
Qed.

(** The search of a package enumerates the directory of the package
    and then reads a first part of the listing, in order, each file
    once and no other file; it reads all of the listing when it returns
    fewer matches than the cap. *)
Theorem searchInPackage_reads_listing (fs : Fs.node) (p : PackageInfo)
        (pattern : string) (maxResults : Z) (rs : list Match) (evs : list event) :
  searchInPackage fs p pattern maxResults = Some (rs, evs) ->
  exists files,
    collectSourceFiles fs (dir p) = Some files
    /\ (exists k, evs = Enumerate (dir p) :: read_events p (firstn k files))
    /\ ((Z.of_nat (length rs) < maxResults)%Z ->
        evs = Enumerate (dir p) :: read_events p files).
Proof.
  unfold searchInPackage. intros H.
  destruct (collectSourceFiles fs (dir p)) as [files|]; [|discriminate].
  destruct (search_regex pattern) as [r|]; [|discriminate].
  injection H as <- <-. exists files. split; [reflexivity|].
  match goal with |- context [scan_files fs r p maxResults files ?s] =>
    destruct (scan_files_reads fs r p maxResults files s) as [[k Hk] Hall] end.
  split.
  - exists k. exact Hk.
  - intros Hlt. apply Hall. unfold reached. apply Z.leb_gt. exact Hlt.
Qed.

(** A file that cannot be read adds nothing to a search and does not
    stop it: the matches are those of the search of the listing
    without the unreadable files. *)
Theorem unreadable_files_are_skipped (fs : Fs.node) (r : RegExp.regex)
        (p : PackageInfo) (maxResults : Z) (files : list string) (st : scan) :
  lastIndex st = 0%nat ->
  results (scan_files fs r p maxResults files st)
  = results (scan_files fs r p maxResults
               (filter (readable fs p) files) st).
Proof.
  intros H0.
  destruct (scan_files_stateless fs r p maxResults files st H0) as [-> _].
  destruct (scan_files_stateless fs r p maxResults (filter (readable fs p) files) st H0)
    as [-> _].
  f_equal. f_equal. unfold package_matches.
  induction files as [|f rest IH]; [reflexivity|]. simpl. unfold readable at 1.
  destruct (Fs.readFileSync fs (Path.join [dir p; f])) eqn:Hr.
  - simpl. rewrite IH. reflexivity.
  - rewrite <- IH. unfold file_matches at 1. rewrite Hr. reflexivity.
Qed.

(** [search_source] returns an error envelope only for an id that is
    neither [all] nor known; for a known scope the envelope is a
    success, also when nothing is found. *)
Theorem search_source_error_only_unknown (root : string) (fs : Fs.node)
        (packageId pattern : string) (maxResults : Z) (env : Envelope) :
  search_source root fs packageId pattern maxResults = Some env ->
  (isError env = true <->
   packageId <> "all" /\ findPackage root packageId = None).
Proof.
  unfold search_source, packagesToSearch. intros H.
  destruct (String.eqb_spec packageId "all") as [->|Hne].
  - cbv iota in H. unfold PACKAGES at 1 in H. cbv iota in H.
    destruct (search_all root fs "all" pattern maxResults) as [[[|h res] tr]|];
      try discriminate; injection H as <-; simpl;
      (split; [discriminate|intros [Hc _]; contradiction]).
  - destruct (findPackage root packageId) as [p|].
    + destruct (search_all root fs packageId pattern maxResults) as [[[|h res] tr]|];
        try discriminate; injection H as <-; simpl;
        (split; [discriminate|intros [_ Hc]; discriminate]).
    + injection H as <-. simpl. split; auto.
Qed.

End SearchMore.

Lemma search_source_error_only_unknown_witness :
  isError (success ("No results found for pattern " ++ Js.dq ++ "zzz" ++ Js.dq
                    ++ " in react-form")) = true
  <-> "react-form" <> "all" /\ Local.findPackage Example.root "react-form" = None.
Proof.
  refine (@search_source_error_only_unknown LiteralEngine.engine Example.root
            Example.disk "react-form" "zzz" 20 _ _).
  reflexivity.
Defined.

Lemma search_hits_are_real_witness :
  exists p files r f txt i l,
    In p (Local.packagesToSearch Example.root "react-form")
    /\ "react-form" = Local.id p
    /\ Local.collectSourceFiles Example.disk (Local.dir p) = Some files
    /\ @Local.search_regex LiteralEngine.engine "a(" = Some r
    /\ In f files
    /\ Fs.readFileSync Example.disk (Path.join [Local.dir p; f]) = Some txt
    /\ nth_error (Js.split Js.nl_char txt) i = Some l
    /\ @SearchSpec.line_matches LiteralEngine.engine r l = true
    /\ {| Local.file := "hooks/useForm.tsx"; Local.line := 3; Local.content := "a(b" |}
       = {| Local.file := f; Local.line := i + 1; Local.content := Js.trim l |}.
Proof.
  refine (@search_hits_are_real LiteralEngine.engine Example.root Example.disk
            "react-form" "a(" 20 _ _
            {| Local.pkg := "react-form";
               Local.hit := {| Local.file := "hooks/useForm.tsx"; Local.line := 3;
                               Local.content := "a(b" |} |} _ _).
  - vm_compute. reflexivity.
  - left. reflexivity.
Defined.

Lemma searchInPackage_reads_listing_witness :
  exists files,
    Local.collectSourceFiles Example.disk (Local.dir Example.react_form) = Some files
    /\ (exists k,
           [Local.Enumerate "/srv/react-base-core/form";
            Local.ReadFile "/srv/react-base-core/form/types.ts";
            Local.ReadFile "/srv/react-base-core/form/hooks/useForm.tsx"]
           = Local.Enumerate (Local.dir Example.react_form)
             :: SearchSpec.read_events Example.react_form (firstn k files))
    /\ ((Z.of_nat 1 < 20)%Z ->
        [Local.Enumerate "/srv/react-base-core/form";
         Local.ReadFile "/srv/react-base-core/form/types.ts";
         Local.ReadFile "/srv/react-base-core/form/hooks/useForm.tsx"]
        = Local.Enumerate (Local.dir Example.react_form)
          :: SearchSpec.read_events Example.react_form files).
Proof.
  refine (@searchInPackage_reads_listing LiteralEngine.engine Example.disk
            Example.react_form "a(" 20
            [{| Local.file := "hooks/useForm.tsx"; Local.line := 3;
                Local.content := "a(b" |}] _ _).
  vm_compute. reflexivity.
Defined.

Lemma unreadable_files_are_skipped_witness :
  Local.results
    (@Local.scan_files LiteralEngine.engine Example.disk "useform" Example.react_form 20
       ["types.ts"; "gone.ts"; "hooks/useForm.tsx"]
       {| Local.results := []; Local.lastIndex := 0; Local.reads := [] |})
  = Local.results
      (@Local.scan_files LiteralEngine.engine Example.disk "useform" Example.react_form 20
         ["types.ts"; "hooks/useForm.tsx"]
         {| Local.results := []; Local.lastIndex := 0; Local.reads := [] |}).
Proof.
  exact (@unreadable_files_are_skipped LiteralEngine.engine Example.disk "useform"
           Example.react_form 20 ["types.ts"; "gone.ts"; "hooks/useForm.tsx"]
           {| Local.results := []; Local.lastIndex := 0; Local.reads := [] |} eq_refl).
Defined.


(* ------------------------------------------------------------------ *)
(** ** Normal forms of joined paths *)

Lemma split_pieces_no_slash (s : string) : Forall no_slash (Js.split Js.slash_char s).
Proof.
  induction s as [|c s IH]; simpl.
  - repeat constructor.
  - destruct (Ascii.eqb c Js.slash_char) eqn:Hc.
    + constructor; [reflexivity|exact IH].
    + pose proof (split_not_nil Js.slash_char s) as Hne.
      destruct (Js.split Js.slash_char s) as [|h t]; [contradiction|].
      inversion IH as [|? ? Hh Ht]; subst. constructor; [|exact Ht].
      unfold no_slash in *. cbn [Js.includes Js.startsWith].
      apply orb_false_iff. split; [|exact Hh].
      rewrite andb_true_r, Ascii.eqb_sym. exact Hc.
Qed.

(** The segments that [normalizeString] keeps for an absolute path are
    entry names. *)
Lemma norm_segs_clean (segs : list string) :
  Forall no_slash segs ->
  forall stack, names stack -> names (Path.norm_segs false stack segs).
Proof.
  induction segs as [|s segs IH]; intros Hns stack Hst; simpl.
  - apply Forall_rev. exact Hst.
  - inversion Hns as [|? ? Hs Hrest]; subst.
    destruct (Js.is_empty s) eqn:He; simpl; [apply IH; assumption|].
    destruct (String.eqb s ".") eqn:Hd; [apply IH; assumption|].
    destruct (String.eqb s "..") eqn:Hdd.
    + destruct stack as [|top stack']; [apply IH; assumption|].
      inversion Hst; subst.
      destruct (String.eqb top ".."); apply IH; assumption.
    + apply IH; [assumption|]. constructor; [|exact Hst].
      unfold entry_name. unfold no_slash in Hs. rewrite He, Hs, Hd, Hdd. reflexivity.
Qed.

Lemma resolved_clean (s : string) : names (Path.resolved s).
Proof.
  unfold Path.resolved. apply norm_segs_clean; [|constructor].
  apply split_pieces_no_slash.
Qed.

Lemma norm_segs_app_names (b : bool) (l1 l2 : list string) :
  names l1 ->
  forall stack, Path.norm_segs b stack (l1 ++ l2)
                = Path.norm_segs b (rev l1 ++ stack) l2.
Proof.
  induction l1 as [|s l1 IH]; intros H stack; [reflexivity|].
  inversion H as [|? ? Hs Hl]; subst.
  destruct (entry_name_inv s Hs) as [He [_ [Hd Hdd]]].
  simpl. rewrite He, Hd, Hdd. simpl. rewrite (IH Hl). rewrite <- app_assoc. reflexivity.
Qed.

Lemma resolved_absolute_trailing (l : list string) :
  l <> [] -> names l -> Path.resolved (absolute l ++ "/") = l.
Proof.
  intros Hne Hl. unfold Path.resolved, Path.segments.
  change (absolute l ++ "/") with (absolute l ++ String Js.slash_char EmptyString).
  rewrite split_app_sep. fold (Path.segments (absolute l)).
  rewrite (segments_absolute l Hne Hl). simpl.
  rewrite (norm_segs_app_names false l [EmptyString] Hl []). simpl.
  rewrite app_nil_r. apply rev_involutive.
Qed.

(** The normal form of an absolute path, by its resolved segments. *)
Lemma normalize_absolute_form (s : string) :
  Path.isAbsolute s = true ->
  Path.normalize s
  = match Path.resolved s with
    | [] => "/"
    | segs => absolute segs ++ (if Js.endsWith s "/" then "/" else EmptyString)
    end.
Proof.
  intros Habs. unfold Path.normalize.
  destruct s as [|c s]; [discriminate|]. cbn [Js.is_empty]. rewrite Habs. cbn [negb].
  fold (Path.resolved (String c s)).
  pose proof (resolved_clean (String c s)) as Hclean.
  destruct (Path.resolved (String c s)) as [|x l] eqn:Hres; [reflexivity|].
  rewrite (join_names_not_empty (x :: l)) by (discriminate || assumption).
  unfold absolute. destruct (Js.endsWith (String c s) "/").
  - rewrite sapp_assoc. reflexivity.
  - rewrite sapp_empty_r. reflexivity.
Qed.

Lemma resolved_normalize (s : string) :
  Path.isAbsolute s = true -> Path.resolved (Path.normalize s) = Path.resolved s.
Proof.
  intros Habs. rewrite (normalize_absolute_form s Habs).
  pose proof (resolved_clean s) as Hclean.
  destruct (Path.resolved s) as [|x l]; [reflexivity|].
  destruct (Js.endsWith s "/").
  - apply resolved_absolute_trailing; [discriminate|assumption].
  - rewrite sapp_empty_r. apply resolved_absolute; [discriminate|assumption].
Qed.

Lemma is_prefix_inv (xs ys : list string) :
  is_prefix xs ys = true -> exists rest, ys = (xs ++ rest)%list.
Proof.
  revert ys. induction xs as [|x xs IH]; intros ys H.
  - exists ys. reflexivity.
  - destruct ys as [|y ys]; [discriminate|]. simpl in H.
    apply andb_true_iff in H. destruct H as [Hxy H].
    apply String.eqb_eq in Hxy. subst y.
    destruct (IH ys H) as [rest ->]. exists rest. reflexivity.
Qed.

Lemma absolute_extends (l rest : list string) (t : string) :
  l <> [] -> Js.startsWith (absolute (l ++ rest) ++ t) (absolute l) = true.
Proof.
  intros Hne. destruct rest as [|x rest].
  - rewrite app_nil_r. apply startsWith_refl_app.
  - unfold absolute. rewrite (join_app l (x :: rest)) by (assumption || discriminate).
    rewrite !sapp_assoc. rewrite <- (sapp_assoc "/" (Js.join "/" l)).
    apply startsWith_refl_app.
Qed.

(** A joined path that resolves into the directory has the directory
    as the start of its text. *)
Lemma join_within_prefix (l : list string) (fp : string) :
  l <> [] -> names l -> Js.is_empty fp = false ->
  within (absolute l) (Path.join [absolute l; fp]) = true ->
  Js.startsWith (Path.join [absolute l; fp]) (absolute l) = true.
Proof.
  intros Hne Hl Hfp. unfold Path.join. cbn [filter].
  change (Js.is_empty (absolute l)) with false. rewrite Hfp. cbn [negb].
  set (s := Js.join "/" [absolute l; fp]).
  assert (Habs : Path.isAbsolute s = true) by reflexivity.
  unfold within. rewrite (resolved_normalize s Habs), (resolved_absolute l Hne Hl).
  intros Hpre. apply is_prefix_inv in Hpre. destruct Hpre as [rest Hrest].
  rewrite (normalize_absolute_form s Habs), Hrest.
  destruct (l ++ rest)%list as [|x l'] eqn:Hl';
    [destruct l; [contradiction|discriminate]|].
  rewrite <- Hl'. apply absolute_extends. exact Hne.
Qed.

(** The traversal guard turns away no path that resolves into the
    directory of the package: such a file path is never answered with
    the traversal error. *)
Theorem guard_accepts_paths_inside (root : string) (fs : Fs.node)
        (packageId : string) (p : Local.PackageInfo) (filePath : string) :
  normal_absolute root = true ->
  Local.findPackage root packageId = Some p ->
  Js.is_empty filePath = false ->
  within (Local.dir p) (Path.join [Local.dir p; filePath]) = true ->
  Js.startsWith (Path.join [Local.dir p; filePath]) (Local.dir p) = true
  /\ Local.get_package_source root fs packageId (Some filePath)
     <> Some (failure "Error: path traversal not allowed").
Proof.
  intros Hroot Hf Hfp Hin.
  destruct (package_dir_absolute root p Hroot (local_findPackage_In root _ _ Hf))
    as [l [Hne [Hl Hdir]]].
  assert (Hstart : Js.startsWith (Path.join [Local.dir p; filePath]) (Local.dir p) = true).
  { rewrite Hdir in *. apply join_within_prefix; assumption. }
  split; [exact Hstart|].
  unfold Local.get_package_source. rewrite Hf, Hfp, Hstart. cbn [negb].
  destruct (Fs.existsSync fs (Path.join [Local.dir p; filePath])); cbn [negb].
  - discriminate.
  - destruct (Local.collectSourceFiles fs (Local.dir p)); discriminate.
Qed.

Lemma guard_accepts_paths_inside_witness :
  Js.startsWith (Path.join [Local.dir Example.react_form; "hooks/../types.ts"])
                (Local.dir Example.react_form) = true
  /\ Local.get_package_source Example.root Example.disk "react-form"
       (Some "hooks/../types.ts")
     <> Some (failure "Error: path traversal not allowed").
Proof.
  refine (guard_accepts_paths_inside Example.root Example.disk "react-form"
            Example.react_form "hooks/../types.ts" _ _ _ _).
  - reflexivity.
  - reflexivity.
  - reflexivity.
  - reflexivity.
Defined.


(* ------------------------------------------------------------------ *)
(** ** Paths shown to the caller *)

Lemma join3_absolute (b : list string) (n1 n2 : string) :
  b <> [] -> names b -> entry_name n1 = true -> entry_name n2 = true ->
  Path.join [absolute b; n1; n2] = absolute (b ++ [n1; n2]).
Proof.
  intros Hne Hb H1 H2.
  destruct (entry_name_inv n1 H1) as [He1 _].
  destruct (entry_name_inv n2 H2) as [He2 _].
  unfold Path.join. cbn [filter].
  change (Js.is_empty (absolute b)) with false. rewrite He1, He2. cbn [negb].
  change (Js.join "/" [absolute b; n1; n2]) with (absolute b ++ "/" ++ n1 ++ "/" ++ n2).
  replace (absolute b ++ "/" ++ n1 ++ "/" ++ n2) with (absolute (b ++ [n1; n2])).
  - apply normalize_absolute; [destruct b; discriminate|].
    apply Forall_app. split; [exact Hb|repeat constructor; assumption].
  - unfold absolute. rewrite (join_app b [n1; n2]) by (assumption || discriminate).
    rewrite sapp_assoc. reflexivity.
Qed.

Lemma relative_self (b : list string) :
  b <> [] -> names b -> Path.relative (absolute b) (absolute b) = EmptyString.
Proof.
  intros Hne Hb. rewrite <- (app_nil_r b) at 2.
  apply (relative_absolute b [] Hne Hb (Forall_nil _)).
Qed.

Lemma directory_of_sub (b : list string) (n : string) (p : Local.PackageInfo) :
  b <> [] -> names b -> entry_name n = true ->
  Local.dir p = Path.join [absolute b; n] ->
  Local.directory_of (absolute b) p = n.
Proof.
  intros Hne Hb Hn Hdir. unfold Local.directory_of.
  rewrite Hdir, (join_absolute b n Hne Hb Hn).
  rewrite (relative_absolute b [n] Hne Hb) by (repeat constructor; exact Hn).
  cbn [Js.join String.concat].
  destruct (entry_name_inv n Hn) as [-> _]. reflexivity.
Qed.

(** The directories that [list_packages] shows are the places of the
    packages below the root: a dot for the package at the root and the
    name of the sub-directory for the others, whatever the root is; and
    the version shown is [unknown] when the manifest cannot be read or
    holds no version that can be had. *)
Theorem list_packages_directories (root : string) (fs : Fs.node)
        (version_of : string -> option string) :
  normal_absolute root = true ->
  map (Local.directory_of root) (Local.PACKAGES root)
  = ["."; "form"; "queries"; "pages"]
  /\ isError (Local.list_packages root fs version_of) = false
  /\ ((Fs.readFileSync fs (Path.join [root; "package.json"]) = None
       \/ exists manifest,
            Fs.readFileSync fs (Path.join [root; "package.json"]) = Some manifest
            /\ version_of manifest = None) ->
      Local.manifest_version root fs version_of = "unknown").
Proof.
  intros Hroot. destruct (normal_absolute_inv root Hroot) as [b [Hne [Hb ->]]].
  split; [|split; [reflexivity|]].
  - cbn [map Local.PACKAGES]. f_equal; [|f_equal; [|f_equal; [|f_equal]]].
    + unfold Local.directory_of. cbn [Local.dir].
      rewrite (relative_self b Hne Hb). reflexivity.
    + apply directory_of_sub; (assumption || reflexivity).
    + apply directory_of_sub; (assumption || reflexivity).
    + apply directory_of_sub; (assumption || reflexivity).
  - unfold Local.manifest_version. intros [->|[manifest [-> ->]]]; reflexivity.
Qed.

Lemma list_packages_directories_witness :
  map (Local.directory_of Example.root) (Local.PACKAGES Example.root)
  = ["."; "form"; "queries"; "pages"].
Proof.
  refine (proj1 (list_packages_directories Example.root Example.disk
                   (fun _ => None) _)).
  reflexivity.
Defined.

(** For a package with a types file, the local [get_package_types]
    returns a success envelope whose banner names the file by its path
    from the root, the directory that [list_packages] shows and
    [types.ts], followed by the text of the file or the placeholder of
    [readFileSafe]. *)
Theorem package_types_banner (root : string) (fs : Fs.node)
        (packageId : string) (p : Local.PackageInfo) (t : string) :
  normal_absolute root = true ->
  Local.findPackage root packageId = Some p ->
  Local.typesPath p = Some t ->
  Local.get_package_types root fs packageId
  = success ("// " ++ Local.name p ++ " — " ++ Local.directory_of root p ++ "/types.ts"
             ++ Js.nl ++ Js.nl ++ Local.readFileSafe fs t).
Proof.
  intros Hroot Hf Ht. unfold Local.get_package_types. rewrite Hf.
  pose proof (local_findPackage_In root _ _ Hf) as Hin.
  rewrite (local_has_types_iff root p Hin), Ht. cbn [negb].
  unfold Local.the_typesPath. rewrite Ht.
  destruct (normal_absolute_inv root Hroot) as [b [Hne [Hb ->]]].
  assert (Hrel : forall n, entry_name n = true ->
                           Path.relative (absolute b) (Path.join [absolute b; n; "types.ts"])
                           = n ++ "/types.ts").
  { intros n Hn. rewrite (join3_absolute b n "types.ts") by (assumption || reflexivity).
    rewrite (relative_absolute b [n; "types.ts"] Hne Hb)
      by (repeat constructor; (assumption || reflexivity)).
    reflexivity. }
  simpl in Hin. destruct Hin as [<-|[<-|[<-|[<-|[]]]]]; try discriminate Ht;
    cbn [Local.typesPath] in Ht; injection Ht as <-;
    rewrite Hrel by reflexivity.
  - match goal with |- context [Local.directory_of _ ?q] =>
      rewrite (directory_of_sub b "form" q Hne Hb eq_refl eq_refl) end.
    reflexivity.
  - match goal with |- context [Local.directory_of _ ?q] =>
      rewrite (directory_of_sub b "queries" q Hne Hb eq_refl eq_refl) end.
    reflexivity.
  - match goal with |- context [Local.directory_of _ ?q] =>
      rewrite (directory_of_sub b "pages" q Hne Hb eq_refl eq_refl) end.
    reflexivity.
Qed.

Lemma package_types_banner_witness :
  Local.get_package_types Example.root Example.disk "react-form"
  = success ("// @gaddario98/react-form — form/types.ts" ++ Js.nl ++ Js.nl
             ++ "export type A = 1;").
Proof.
  refine (package_types_banner Example.root Example.disk "react-form"
            Example.react_form "/srv/react-base-core/form/types.ts" _ _ _).
  - reflexivity.
  - reflexivity.
  - reflexivity.
Defined.

(* ------------------------------------------------------------------ *)
(** ** Resources and tools *)

(** The README resources are one for each package, in the order of the
    registry, under distinct addresses; the text of the local resource
    of a package is the text that [get_package_docs] returns for the id
    of the package, and so is the text of the remote resource whenever
    [get_package_docs] does not return an error. *)
Theorem readme_resource_agrees_with_docs (root : string) (fs : Fs.node)
        (fetch_text : string -> Net.result (Net.response string)) :
  map resource_text (Local.readme_resources root fs)
  = map (fun p => text (Local.get_package_docs root fs (Local.id p)))
        (Local.PACKAGES root)
  /\ map resource_uri (Local.readme_resources root fs)
     = map (fun p => "docs://" ++ Local.id p ++ "/readme") (Local.PACKAGES root)
  /\ NoDup (map resource_uri (Local.readme_resources root fs))
  /\ Forall2 (fun res p =>
                resource_uri res = "docs://" ++ Remote.id p ++ "/readme"
                /\ (isError (Remote.get_package_docs fetch_text (Remote.id p)) = false ->
                    resource_text res
                    = text (Remote.get_package_docs fetch_text (Remote.id p))))
             (Remote.readme_resources fetch_text) Remote.PACKAGES.
Proof.
  split; [reflexivity|]. split; [reflexivity|]. split.
  - simpl. repeat constructor; simpl; intuition discriminate.
  - unfold Remote.readme_resources, Remote.PACKAGES. cbn [map].
    repeat (apply Forall2_cons; [split; [reflexivity|]|]); [..|apply Forall2_nil].
    all: cbn [resource_text Remote.id Remote.repo Remote.branch Remote.readmePath].
    all: unfold Remote.get_package_docs.
    all: match goal with
         | |- context [Remote.findPackage ?i] =>
             let v := eval vm_compute in (Remote.findPackage i) in
             change (Remote.findPackage i) with v
         end.
    all: cbn [Remote.repo Remote.branch Remote.readmePath].
    all: match goal with
         | |- context [Remote.fetchRawFile ?f ?a ?b ?c] =>
             destruct (Remote.fetchRawFile f a b c)
         end; simpl; intros H; first [reflexivity | discriminate H].
Qed.

Lemma readme_resource_agrees_with_docs_witness :
  map resource_text (Local.readme_resources Example.root Example.disk)
  = ["# core"; "# form";
     "Error: file not found at /srv/react-base-core/queries/README.md";
     "Error: file not found at /srv/react-base-core/pages/README.md"].
Proof.
  exact (proj1 (readme_resource_agrees_with_docs Example.root Example.disk
                  Example.fetch_text)).
Defined.

(* ------------------------------------------------------------------ *)
(** ** Failures of the host *)

(** The remote [get_package_source] asks the host for the file path as
    it is given, under the repository and the branch of the package: a
    404 of the host yields an error envelope that names the path and
    the repository, another failure one that carries the status text,
    and a success the banner and the text as the host sent it. *)
Theorem remote_source_follows_host (GITHUB_TOKEN : option string)
        (fetch_text : string -> Net.result (Net.response string))
        (fetch_tree : string -> Net.result (Net.response (list Net.tree_item)))
        (packageId filePath : string) (p : Remote.PackageInfo)
        (resp : Net.response string) :
  Remote.findPackage packageId = Some p ->
  Js.is_empty filePath = false ->
  fetch_text ("https://raw.githubusercontent.com/" ++ Remote.repo p ++ "/"
              ++ Remote.branch p ++ "/" ++ filePath) = Net.Ok resp ->
  Remote.get_package_source GITHUB_TOKEN fetch_text fetch_tree packageId (Some filePath)
  = if Net.ok resp
    then success ("// " ++ Remote.name p ++ " — " ++ filePath ++ Js.nl ++ Js.nl
                  ++ Net.body resp)
    else if (Net.status resp =? 404)%nat
         then failure ("Error fetching source file: File not found: " ++ filePath
                       ++ " in " ++ Remote.repo p)
         else failure ("Error fetching source file: Failed to fetch file: "
                       ++ Net.statusText resp).
Proof.
  intros Hf Hfp Hresp.
  pose proof (remote_basePath_empty p (remote_findPackage_In _ _ Hf)) as Hbase.
  unfold Remote.get_package_source. rewrite Hf, Hfp, Hbase. cbn [Js.is_empty negb].
  unfold Remote.fetchRawFile. rewrite Hresp.
  destruct (Net.ok resp); cbn [negb]; [reflexivity|].
  destruct (Net.status resp =? 404)%nat; reflexivity.
Qed.

Lemma remote_source_follows_host_witness :
  Remote.get_package_source None Example.fetch_text Example.fetch_tree
    "react-form" (Some "hooks/gone.ts")
  = failure ("Error fetching source file: File not found: hooks/gone.ts in gaddario98/react-base-form").
Proof.
  refine (remote_source_follows_host None Example.fetch_text Example.fetch_tree
            "react-form" "hooks/gone.ts"
            (nth 1 Remote.PACKAGES
                 (Remote.Build_PackageInfo EmptyString EmptyString EmptyString
                    EmptyString EmptyString EmptyString EmptyString None EmptyString))
            {| Net.ok := false; Net.status := 404; Net.statusText := "Not Found";
               Net.body := EmptyString |} _ _ _).
  - reflexivity.
  - reflexivity.
  - reflexivity.
Defined.


(* ------------------------------------------------------------------ *)
(** ** What the traversal guard lets through *)

Lemma split_join_app (l : list string) (d : string) :
  l <> [] -> Forall no_slash l ->
  Js.split Js.slash_char (Js.join "/" l ++ d)
  = (removelast l
     ++ (last l EmptyString ++ hd EmptyString (Js.split Js.slash_char d))%string
        :: tl (Js.split Js.slash_char d))%list.
Proof.
  induction l as [|x l IH]; intros Hne Hl; [contradiction|].
  inversion Hl as [|? ? Hx Hl']; subst.
  destruct l as [|y l'].
  - simpl Js.join. apply split_app_no_slash. exact Hx.
  - rewrite join_cons by discriminate. rewrite !sapp_assoc.
    rewrite (split_app_no_slash x _ Hx).
    change ("/" ++ Js.join "/" (y :: l') ++ d)
      with ("/" ++ (Js.join "/" (y :: l') ++ d)).
    rewrite split_slash. cbn [hd tl]. rewrite sapp_empty_r.
    rewrite IH by (discriminate || assumption). reflexivity.
Qed.

Lemma segments_absolute_app (l : list string) (d : string) :
  l <> [] -> names l ->
  Path.segments (absolute l ++ d)
  = (EmptyString :: removelast l
     ++ (last l EmptyString ++ hd EmptyString (Js.split Js.slash_char d))%string
        :: tl (Js.split Js.slash_char d))%list.
Proof.
  intros Hne Hl. unfold absolute, Path.segments. rewrite sapp_assoc.
  change ("/" ++ Js.join "/" l ++ d) with ("/" ++ (Js.join "/" l ++ d)).
  rewrite split_slash, split_join_app; [reflexivity|exact Hne|].
  apply names_no_slash. exact Hl.
Qed.

Lemma is_prefix_app (xs rest : list string) : is_prefix xs (xs ++ rest) = true.
Proof.
  induction xs as [|x xs IH]; simpl; [reflexivity|].
  rewrite String.eqb_refl. exact IH.
Qed.

Lemma app_eq_prefix {A : Type} (a b c t : list A) :
  (a ++ b = c ++ t)%list -> (length a <= length c)%nat ->
  exists r, c = (a ++ r)%list.
Proof.
  intros H Hlen. apply app_eq_app in H. destruct H as [l [[Ha _]|[Hc _]]].
  - assert (l = []).
    { apply (f_equal (@length A)) in Ha. rewrite length_app in Ha.
      destruct l; [reflexivity|simpl in Ha; lia]. }
    subst l. rewrite app_nil_r in Ha. subst a. exists []. rewrite app_nil_r. reflexivity.
  - exists l. exact Hc.
Qed.

(** A path in normal form whose text starts with the text of a
    directory lies in the parent of that directory. *)
Lemma prefix_within_parent (l segs : list string) (t : string) :
  l <> [] -> names l -> segs <> [] -> names segs ->
  t = EmptyString \/ t = "/" ->
  Js.startsWith (absolute segs ++ t) (absolute l) = true ->
  is_prefix (removelast l) segs = true.
Proof.
  intros Hne Hl Hns Hsegs Ht H. apply startsWith_inv in H.
  apply (f_equal Path.segments) in H.
  rewrite (segments_absolute_app l _ Hne Hl) in H.
  rewrite (segments_absolute_app segs t Hns Hsegs) in H.
  injection H as H.
  assert (Hrest : exists T, (length T <= 1)%nat
                  /\ (removelast segs
                      ++ (last segs EmptyString ++ hd EmptyString (Js.split Js.slash_char t))%string
                         :: tl (Js.split Js.slash_char t))%list = (segs ++ T)%list).
  { destruct Ht as [-> | ->]; simpl.
    - exists []. split; [simpl; lia|]. rewrite sapp_empty_r, app_nil_r.
      symmetry. apply app_removelast_last. exact Hns.
    - exists [EmptyString]. split; [simpl; lia|]. rewrite sapp_empty_r.
      rewrite (app_removelast_last EmptyString Hns) at 3.
      rewrite <- app_assoc. reflexivity. }
  destruct Hrest as [T [HT Heq]]. rewrite Heq in H. symmetry in H.
  destruct (app_eq_prefix _ _ _ _ H) as [r ->].
  - apply (f_equal (@length string)) in H. rewrite !length_app in H. simpl in H. lia.
  - apply is_prefix_app.
Qed.

(** Whatever file path passes the traversal guard resolves into the
    parent of the directory of the package: the guard lets no path
    climb higher. *)
Theorem guard_confines_to_parent (root : string) (packageId : string)
        (p : Local.PackageInfo) (filePath : string) :
  normal_absolute root = true ->
  Local.findPackage root packageId = Some p ->
  Js.is_empty filePath = false ->
  Js.startsWith (Path.join [Local.dir p; filePath]) (Local.dir p) = true ->
  is_prefix (removelast (Path.resolved (Local.dir p)))
            (Path.resolved (Path.join [Local.dir p; filePath])) = true.
Proof.
  intros Hroot Hf Hfp.
  destruct (package_dir_absolute root p Hroot (local_findPackage_In root _ _ Hf))
    as [l [Hne [Hl ->]]].
  rewrite (resolved_absolute l Hne Hl).
  unfold Path.join. cbn [filter].
  change (Js.is_empty (absolute l)) with false. rewrite Hfp. cbn [negb].
  set (s := Js.join "/" [absolute l; filePath]).
  assert (Habs : Path.isAbsolute s = true) by reflexivity.
  rewrite (resolved_normalize s Habs), (normalize_absolute_form s Habs).
  pose proof (resolved_clean s) as Hclean.
  destruct (Path.resolved s) as [|x segs] eqn:Hres.
  - intros H. exfalso. unfold absolute in H.
    pose proof (join_names_not_empty l Hne Hl) as He.
    destruct (Js.join "/" l); [discriminate He|]. simpl in H. discriminate H.
  - apply prefix_within_parent; try assumption; try discriminate.
    destruct (Js.endsWith s "/"); auto.
Qed.

Lemma guard_confines_to_parent_witness :
  is_prefix (removelast (Path.resolved "/srv/react-base-core"))
            (Path.resolved (Path.join ["/srv/react-base-core";
                                       "../react-base-core.bak/secret.ts"])) = true.
Proof.
  refine (guard_confines_to_parent Example.root "react-core"
            (hd Example.react_form (Local.PACKAGES Example.root))
            "../react-base-core.bak/secret.ts" _ _ _ _).
  - reflexivity.
  - reflexivity.
  - reflexivity.
  - reflexivity.
Defined.

(** A file path that resolves into the directory of the package but
    names nothing there is answered with an error envelope that names
    the path and lists the source files of the package. *)
Theorem missing_file_lists_sources (root : string) (fs : Fs.node)
        (packageId : string) (p : Local.PackageInfo) (filePath : string)
        (files : list string) :
  normal_absolute root = true ->
  Local.findPackage root packageId = Some p ->
  Js.is_empty filePath = false ->
  within (Local.dir p) (Path.join [Local.dir p; filePath]) = true ->
  Fs.existsSync fs (Path.join [Local.dir p; filePath]) = false ->
  Local.collectSourceFiles fs (Local.dir p) = Some files ->
  Local.get_package_source root fs packageId (Some filePath)
  = Some (failure ("File not found: " ++ filePath ++ Js.nl ++ Js.nl ++
                   "Available files:" ++ Js.nl ++
                   Js.join Js.nl (map (fun f => "- " ++ f) files))).
Proof.
  intros Hroot Hf Hfp Hin Hex Hc.
  destruct (package_dir_absolute root p Hroot (local_findPackage_In root _ _ Hf))
    as [l [Hne [Hl Hdir]]].
  unfold Local.get_package_source. rewrite Hf, Hfp, Hex, Hc.
  rewrite Hdir in *. rewrite (join_within_prefix l filePath Hne Hl Hfp Hin).
  reflexivity.
Qed.

Lemma missing_file_lists_sources_witness :
  Local.get_package_source Example.root Example.disk "react-form" (Some "hooks/gone.ts")
  = Some (failure ("File not found: hooks/gone.ts" ++ Js.nl ++ Js.nl ++
                   "Available files:" ++ Js.nl ++
                   Js.join Js.nl (map (fun f => "- " ++ f)
                                      ["types.ts"; "hooks/useForm.tsx"]))).
Proof.
  refine (missing_file_lists_sources Example.root Example.disk "react-form"
            Example.react_form "hooks/gone.ts" ["types.ts"; "hooks/useForm.tsx"]
            _ _ _ _ _ _).
  - reflexivity.
  - reflexivity.
  - reflexivity.
  - reflexivity.
  - reflexivity.
  - reflexivity.
Defined.

